(** * Phonic operational-resilience core: health aggregation and graceful shutdown

    A shallow embedding of [pkg/health/health.go] and [pkg/shutdown/shutdown.go],
    followed by the pure parts of [pkg/config/config.go] and the recovery,
    logging and CORS middleware of [pkg/middleware/tracing.go].

    - Go values are modelled by the obvious Rocq data: [string] for strings and
      for the string-backed [Status] type, [Z] for [time.Time] (Unix
      nanoseconds) and [time.Duration] (nanoseconds), [gmap string _] for Go
      maps, [list] for slices, records for structs.
    - Go code with effects is written in a small state monad [M].  The state
      holds the part of the world that code outside the two packages can read
      and change (the clock and an abstract environment [Env]) and a trace of
      the events the two packages produce: the lines they hand to the logger
      and their calls into user supplied code (shutdown hooks, checkers).
    - The type class [Checker] plays the role of the Go interface of the same
      name; [AnyChecker] is an interface value (a dynamic type with a value). *)

From Stdlib Require Import ZArith String List.
From stdpp Require Import base option list strings gmap pretty.

Local Open Scope Z_scope.

(** ** Shared vocabulary: time, contexts, the logger, the state monad *)

Module Base.

Definition Time := Z.
Definition Duration := Z.

Definition Second : Duration := 1000000000.

(** [context.Context], reduced to what the two packages use of it: the
    deadline it carries. *)
Record Context := mkContext { Deadline : option Time }.

Definition Background : Context := {| Deadline := None |}.

(** [context.WithTimeout(parent, d)] evaluated at instant [t]: the child
    deadline is [t + d] unless the parent already expires earlier. *)
Definition WithTimeout (parent : Context) (t : Time) (d : Duration) : Context :=
  match Deadline parent with
  | Some cur => if cur <? t + d then parent else {| Deadline := Some (t + d) |}
  | None => {| Deadline := Some (t + d) |}
  end.

(** Structured log fields ([zap.String], [zap.Int], [zap.Duration],
    [zap.Error]) and log entries. *)
Inductive Field :=
| FString (key value : string)
| FInt (key : string) (value : Z)
| FDuration (key : string) (value : Duration)
| FError (err : string).

Inductive Level := LInfo | LError.

Record Entry := mkEntry { level : Level; msg : string; fields : list Field }.

(** Events contributed to the trace.  [EvHook i ctx t err] records that the
    shutdown hook registered at index [i] was called at instant [t] with
    context [ctx] and returned [err]; [EvCheck n] records that the checker
    registered under [n] was asked for a result; [EvExit c] is [os.Exit(c)]. *)
Inductive Event :=
| EvLog (e : Entry)
| EvHook (index : nat) (ctx : Context) (at_time : Time) (err : option string)
| EvCheck (name : string)
| EvExit (code : Z).

Section WithEnv.
Context {Env : Type}.

(** What code outside the packages sees and changes. *)
Record World := mkWorld { now : Time; env : Env }.

Record State := mkState { world : World; trace : list Event }.

(** An operation of an external collaborator (a hook, a database ping, an
    HTTP probe): it may take time and change the environment. *)
Definition Ext (A : Type) : Type := World -> A * World.

Definition M (A : Type) : Type := State -> A * State.

Definition ret {A} (a : A) : M A := fun s => (a, s).

Definition bind {A B} (c : M A) (k : A -> M B) : M B :=
  fun s => let (a, s') := c s in k a s'.

Definition call {A} (f : Ext A) : M A :=
  fun s => let (a, w) := f (world s) in (a, {| world := w; trace := trace s |}).

Definition emit (ev : Event) : M unit :=
  fun s => (tt, {| world := world s; trace := trace s ++ [ev] |}).

(** [time.Now()] and [time.Since(start)].  The clock of the model moves
    only inside [call], that is, while an external collaborator runs; the
    statements of the packages themselves take no time.  A reading of the
    clock is therefore only ever identified with the external call next to
    it, never with another reading that the source takes at a later
    statement. *)
Definition Now : M Time := fun s => (now (world s), s).
Definition Since (start : Time) : M Duration :=
  fun s => (now (world s) - start, s).

(** [logger.Info] and [logger.Error]. *)
Definition Info (m : string) (fs : list Field) : M unit :=
  emit (EvLog {| level := LInfo; msg := m; fields := fs |}).
Definition Error (m : string) (fs : list Field) : M unit :=
  emit (EvLog {| level := LError; msg := m; fields := fs |}).

Definition exec {A} (c : M A) (s : State) : State := snd (c s).
Definition eval {A} (c : M A) (s : State) : A := fst (c s).
End WithEnv.

(** The result of a fallible library call: a value or the text of the error. *)
Inductive Result (A : Type) :=
| Ok (a : A)
| Err (e : string).
Arguments Ok {A} a.
Arguments Err {A} e.

(** The line feed that [fmt.Fprintln] and [Encoder.Encode] append. *)
Definition newline : string := String (Ascii.ascii_of_nat 10) EmptyString.

(** [fmt.Sprintf("%d", n)]. *)
Definition fmt_d (n : Z) : string := pretty n.

Arguments World : clear implicits.
Arguments State : clear implicits.
Arguments Ext : clear implicits.
Arguments M : clear implicits.

Notation "x <- c ;; k" := (bind c (fun x => k))
  (at level 100, c at next level, right associativity).
Notation "c ;; k" := (bind c (fun _ => k))
  (at level 100, right associativity).

(** The hook calls of a trace, in order. *)
Definition hook_index (ev : Event) : option nat :=
  match ev with EvHook i _ _ _ => Some i | _ => None end.

Definition hook_calls (tr : list Event) : list nat := omap hook_index tr.

End Base.

(** ** Package shutdown *)

Module Shutdown.
Import Base.

Section WithEnv.
Context {Env : Type}.

(** [type Hook func(ctx context.Context) error]; [None] is the nil error. *)
Definition Hook := Context -> Ext Env (option string).

(** [Manager]: the struct has exactly the fields [hooks], [timeout],
    [logger] and [mu].  The logger is the trace of the state; the mutex only
    protects [hooks] and has no counterpart in this sequential model. *)
Record Manager := mkManager { hooks : list Hook; timeout : Duration }.

Definition NewManager (t : Duration) : Manager :=
  {| hooks := []; timeout := t |}.

Definition AddHook (m : Manager) (hook : Hook) : Manager :=
  {| hooks := hooks m ++ [hook]; timeout := timeout m |}.

(** One iteration of the loop of [Shutdown] at index [i]. *)
Definition run_hook (ctx : Context) (i : nat) (hook : Hook) : M Env unit :=
  t <- Now ;;
  err <- call (hook ctx) ;;
  emit (EvHook i ctx t err) ;;
  match err with
  | Some e => Error "Shutdown hook failed" [FError e; FInt "hook_index" (Z.of_nat i)]
  | None => ret tt
  end.

(** [for i := len(hooks) - 1; i >= 0; i--]: [run_hooks hs ctx n] performs
    the iterations for [i = n - 1] down to [i = 0].  The [None] branch is an
    index out of range, where Go panics; [Shutdown] never reaches it. *)
Fixpoint run_hooks (hs : list Hook) (ctx : Context) (n : nat) : M Env unit :=
  match n with
  | O => ret tt
  | S i =>
      match hs !! i with
      | Some hook => run_hook ctx i hook ;; run_hooks hs ctx i
      | None => ret tt
      end
  end.

Definition Shutdown (m : Manager) : M Env unit :=
  t0 <- Now ;;
  let ctx := WithTimeout Background t0 (timeout m) in
  Info "Starting graceful shutdown" [FDuration "timeout" (timeout m)] ;;
  let hs := hooks m in
  run_hooks hs ctx (length hs) ;;
  Info "Graceful shutdown completed" [].

(** [Listen], from the point where the signal [sig] has been received. *)
Definition Listen (m : Manager) (sig : string) : M Env unit :=
  Info "Received shutdown signal" [FString "signal" sig] ;;
  Shutdown m.

(** [WaitForShutdown], from the same point: it ends the process. *)
Definition WaitForShutdown (m : Manager) (sig : string) : M Env unit :=
  Info "Received shutdown signal" [FString "signal" sig] ;;
  Shutdown m ;;
  emit (EvExit 0).
End WithEnv.

Arguments Hook : clear implicits.
Arguments Manager : clear implicits.

End Shutdown.

(** ** Package health *)

Module Health.
Import Base.

(** [type Status string]: any string is a value of the type. *)
Definition Status := string.

Definition StatusHealthy : Status := "healthy".
Definition StatusUnhealthy : Status := "unhealthy".
Definition StatusUnknown : Status := "unknown".

Record CheckResult := mkCheckResult {
  cr_Name : string;
  cr_Status : Status;
  cr_Message : string;
  cr_Duration : Duration;
  cr_Metadata : gmap string string;
  cr_Timestamp : Time
}.

Record HealthResponse := mkHealthResponse {
  hr_Status : Status;
  hr_Timestamp : Time;
  hr_Service : string;
  hr_Version : string;
  hr_Uptime : Duration;
  hr_Checks : list CheckResult
}.

(** [result.Name = n]. *)
Definition set_Name (n : string) (r : CheckResult) : CheckResult :=
  {| cr_Name := n; cr_Status := cr_Status r; cr_Message := cr_Message r;
     cr_Duration := cr_Duration r; cr_Metadata := cr_Metadata r;
     cr_Timestamp := cr_Timestamp r |}.

(** *** net/http, as far as the handlers use it

    A [ResponseWriter] keeps the header map under construction, what has
    been sent as status line and headers (nothing before the first
    [WriteHeader] or [Write]), and the body written so far. *)
Record ResponseWriter := mkResponseWriter {
  Header : gmap string string;
  Sent : option (Z * gmap string string);
  Body : string
}.

Definition NewRecorder : ResponseWriter :=
  {| Header := ∅; Sent := None; Body := "" |}.

Definition StatusOK : Z := 200.
Definition StatusInternalServerError : Z := 500.
Definition StatusServiceUnavailable : Z := 503.

Definition Header_Set (k v : string) (w : ResponseWriter) : ResponseWriter :=
  {| Header := <[k := v]> (Header w); Sent := Sent w; Body := Body w |}.

Definition Header_Del (k : string) (w : ResponseWriter) : ResponseWriter :=
  {| Header := delete k (Header w); Sent := Sent w; Body := Body w |}.

(** [w.WriteHeader(code)]: the first call sends the status line with the
    headers set so far; a later call is superfluous and changes nothing. *)
Definition WriteHeader (code : Z) (w : ResponseWriter) : ResponseWriter :=
  match Sent w with
  | Some _ => w
  | None => {| Header := Header w; Sent := Some (code, Header w); Body := Body w |}
  end.

(** [w.Write(data)]: sends status 200 first when no header was written.
    The headers that net/http adds on its own account (the date, the
    content length, a content type sniffed from the first bytes written)
    are not part of [Sent], which holds the header map of the handler. *)
Definition Write (data : string) (w : ResponseWriter) : ResponseWriter :=
  let w := match Sent w with Some _ => w | None => WriteHeader StatusOK w end in
  {| Header := Header w; Sent := Sent w; Body := Body w +:+ data |}.

(** [http.Error(w, error, code)]. *)
Definition http_Error (w : ResponseWriter) (error : string) (code : Z) : ResponseWriter :=
  let w := Header_Del "Content-Length" w in
  let w := Header_Set "Content-Type" "text/plain; charset=utf-8" w in
  let w := Header_Set "X-Content-Type-Options" "nosniff" w in
  let w := WriteHeader code w in
  Write (error +:+ newline) w.

(** The status code the client receives, if any. *)
Definition status_of (w : ResponseWriter) : option Z := fst <$> Sent w.

Record Request := mkRequest { req_Context : Context }.

(** The response of the probed service, as far as [MoshiChecker] reads it:
    [resp.StatusCode] and [resp.Header.Get("Content-Type")]. *)
Record Response := mkResponse { StatusCode : Z; ContentType : string }.

(** An outgoing request as built by [http.NewRequestWithContext]. *)
Record ClientRequest := mkClientRequest {
  creq_Context : Context;
  creq_Method : string;
  creq_URL : string
}.

(** The HTTP client of the standard library, seen from [MoshiChecker]:
    building a request can fail, and [client.Do] (for a client with the
    given timeout) yields a response or a transport error. *)
Class HTTPClient (Env : Type) := mkHTTPClient {
  NewRequestWithContext : Context -> string -> string -> Result ClientRequest;
  client_Do : Duration -> ClientRequest -> Ext Env (Result Response)
}.

(** [sql.DBStats], the three counters that are reported. *)
Record DBStats := mkDBStats { OpenConnections : Z; InUse : Z; Idle : Z }.

Section WithEnv.
Context {Env : Type}.

(** [type Checker interface { Check(ctx context.Context) CheckResult }]. *)
Class Checker (T : Type) := Check : T -> Context -> M Env CheckResult.

(** A value of interface type [Checker]. *)
Record AnyChecker := mkAnyChecker {
  dyn_type : Type;
  dyn_Checker : Checker dyn_type;
  dyn_value : dyn_type
}.

Definition toChecker {T} `{Checker T} (c : T) : AnyChecker :=
  {| dyn_type := T; dyn_Checker := _; dyn_value := c |}.

Definition Check_dyn (c : AnyChecker) (ctx : Context) : M Env CheckResult :=
  @Check _ (dyn_Checker c) (dyn_value c) ctx.

(** [Manager]; the logger is the trace of the state, and the lock has no
    counterpart: a pass works on the snapshot it takes under the lock. *)
Record Manager := mkManager {
  serviceName : string;
  version : string;
  startTime : Time;
  checkers : gmap string AnyChecker
}.

Definition NewManager (serviceName version : string) : M Env Manager :=
  t <- Now ;;
  ret {| serviceName := serviceName; version := version; startTime := t;
         checkers := ∅ |}.

Definition AddChecker (m : Manager) (name : string) (checker : AnyChecker) : Manager :=
  {| serviceName := serviceName m; version := version m; startTime := startTime m;
     checkers := <[name := checker]> (checkers m) |}.

Definition RemoveChecker (m : Manager) (name : string) : Manager :=
  {| serviceName := serviceName m; version := version m; startTime := startTime m;
     checkers := delete name (checkers m) |}.

(** The order in which the goroutines of one pass deliver their results:
    a schedule maps the entries of the snapshot to the sequence in which
    their results arrive on the channel.  It is [fair] when every goroutine
    delivers exactly once, which is what the wait group waits for. *)
Definition Schedule := list (string * AnyChecker) -> list (string * AnyChecker).

Definition fair (sched : Schedule) : Prop := ∀ l, sched l ≡ₚ l.

(** The body of one goroutine:
    [result := c.Check(ctx); result.Name = n; resultCh <- result]. *)
Definition run_checker (ctx : Context) (nc : string * AnyChecker) : M Env CheckResult :=
  emit (EvCheck nc.1) ;;
  result <- Check_dyn nc.2 ctx ;;
  ret (set_Name nc.1 result).

(** [for result := range resultCh { checks = append(checks, result) }],
    with the goroutines run to completion in the order of arrival. *)
Fixpoint collect (ctx : Context) (arrivals : list (string * AnyChecker))
    (checks : list CheckResult) : M Env (list CheckResult) :=
  match arrivals with
  | [] => ret checks
  | nc :: rest =>
      result <- run_checker ctx nc ;;
      collect ctx rest (checks ++ [result])
  end.

(** The loop that determines the overall status, with its [break]. *)
Fixpoint overall_loop (overallStatus : Status) (checks : list CheckResult) : Status :=
  match checks with
  | [] => overallStatus
  | check :: rest =>
      if String.eqb (cr_Status check) StatusUnhealthy
      then StatusUnhealthy
      else overall_loop overallStatus rest
  end.

Definition CheckHealth (sched : Schedule) (m : Manager) (ctx : Context) : M Env HealthResponse :=
  start <- Now ;;
  let snapshot := checkers m in
  checks <- collect ctx (sched (map_to_list snapshot)) [] ;;
  let overallStatus := overall_loop StatusHealthy checks in
  duration <- Since start ;;
  Info "Health check completed"
    [FString "overall_status" overallStatus; FDuration "duration" duration;
     FInt "checks_count" (Z.of_nat (length checks))] ;;
  timestamp <- Now ;;
  uptime <- Since (startTime m) ;;
  ret {| hr_Status := overallStatus; hr_Timestamp := timestamp;
         hr_Service := serviceName m; hr_Version := version m;
         hr_Uptime := uptime; hr_Checks := checks |}.

(** *** The three handlers *)

Section Handlers.
(** [json.Marshal] on a report: the encoded text, or an error. *)
Variable json_Marshal : HealthResponse -> Result string.

(** [json.NewEncoder(w).Encode(v)]: nothing is written when marshalling
    fails; otherwise the text and a line feed are written. *)
Definition Encode (w : ResponseWriter) (v : HealthResponse) : ResponseWriter * option string :=
  match json_Marshal v with
  | Ok text => (Write (text +:+ newline) w, None)
  | Err e => (w, Some e)
  end.

Definition HTTPHandler (sched : Schedule) (m : Manager)
    (w : ResponseWriter) (r : Request) : M Env ResponseWriter :=
  t <- Now ;;
  let ctx := WithTimeout (req_Context r) t (30 * Second) in
  health <- CheckHealth sched m ctx ;;
  let w := Header_Set "Content-Type" "application/json" w in
  let w := if String.eqb (hr_Status health) StatusHealthy
           then WriteHeader StatusOK w
           else WriteHeader StatusServiceUnavailable w in
  let (w, err) := Encode w health in
  match err with
  | Some e =>
      Error "Failed to encode health response" [FError e] ;;
      ret (http_Error w "Internal Server Error" StatusInternalServerError)
  | None => ret w
  end.
End Handlers.

Definition ReadinessHandler (sched : Schedule) (m : Manager)
    (w : ResponseWriter) (r : Request) : M Env ResponseWriter :=
  t <- Now ;;
  let ctx := WithTimeout (req_Context r) t (10 * Second) in
  health <- CheckHealth sched m ctx ;;
  if String.eqb (hr_Status health) StatusHealthy
  then ret (Write "ready" (WriteHeader StatusOK w))
  else ret (Write "not ready" (WriteHeader StatusServiceUnavailable w)).

Definition LivenessHandler (m : Manager)
    (w : ResponseWriter) (r : Request) : M Env ResponseWriter :=
  ret (Write "alive" (WriteHeader StatusOK w)).

(** *** Checker variants *)

(** A [*sql.DB] handle, by the two methods that are called on it. *)
Record DB := mkDB {
  PingContext : Context -> Ext Env (option string);
  Stats : Ext Env DBStats
}.

Record DatabaseChecker := mkDatabaseChecker { db : DB }.

Definition NewDatabaseChecker (db : DB) : DatabaseChecker := {| db := db |}.

Definition DatabaseChecker_Check (c : DatabaseChecker) (ctx : Context) : M Env CheckResult :=
  start <- Now ;;
  err <- call (PingContext (db c) ctx) ;;
  duration <- Since start ;;
  match err with
  | Some e =>
      Error "Database health check failed" [FError e; FDuration "duration" duration] ;;
      ts <- Now ;;
      ret {| cr_Name := ""; cr_Status := StatusUnhealthy;
             cr_Message := "Database ping failed: " +:+ e;
             cr_Duration := duration; cr_Metadata := ∅; cr_Timestamp := ts |}
  | None =>
      stats <- call (Stats (db c)) ;;
      let metadata : gmap string string :=
        {[ "open_connections" := fmt_d (OpenConnections stats);
           "in_use" := fmt_d (InUse stats);
           "idle" := fmt_d (Idle stats) ]} in
      ts <- Now ;;
      ret {| cr_Name := ""; cr_Status := StatusHealthy;
             cr_Message := "Database connection healthy";
             cr_Duration := duration; cr_Metadata := metadata; cr_Timestamp := ts |}
  end.

#[export] Instance DatabaseChecker_Checker : Checker DatabaseChecker := DatabaseChecker_Check.

(** A [*redis.Client], by the two commands that are issued; each yields
    the reply and the error of [.Result()]. *)
Record RedisClient := mkRedisClient {
  redis_Ping : Context -> Ext Env (string * option string);
  redis_Info : Context -> Ext Env (string * option string)
}.

Record RedisChecker := mkRedisChecker { client : RedisClient }.

Definition NewRedisChecker (client : RedisClient) : RedisChecker := {| client := client |}.

Definition RedisChecker_Check (c : RedisChecker) (ctx : Context) : M Env CheckResult :=
  start <- Now ;;
  reply <- call (redis_Ping (client c) ctx) ;;
  let (pong, err) := (reply : string * option string) in
  duration <- Since start ;;
  match err with
  | Some e =>
      Error "Redis health check failed" [FError e; FDuration "duration" duration] ;;
      ts <- Now ;;
      ret {| cr_Name := ""; cr_Status := StatusUnhealthy;
             cr_Message := "Redis ping failed: " +:+ e;
             cr_Duration := duration; cr_Metadata := ∅; cr_Timestamp := ts |}
  | None =>
      if negb (String.eqb pong "PONG") then
        ts <- Now ;;
        ret {| cr_Name := ""; cr_Status := StatusUnhealthy;
               cr_Message := "Redis ping returned unexpected response: " +:+ pong;
               cr_Duration := duration; cr_Metadata := ∅; cr_Timestamp := ts |}
      else
        info <- call (redis_Info (client c) ctx) ;;
        let metadata : gmap string string := {[ "ping_response" := pong ]} in
        let metadata :=
          match snd (info : string * option string) with
          | None => <["info_available" := "true"]> metadata
          | Some _ => metadata
          end in
        ts <- Now ;;
        ret {| cr_Name := ""; cr_Status := StatusHealthy;
               cr_Message := "Redis connection healthy";
               cr_Duration := duration; cr_Metadata := metadata; cr_Timestamp := ts |}
  end.

#[export] Instance RedisChecker_Checker : Checker RedisChecker := RedisChecker_Check.

Record MoshiChecker := mkMoshiChecker { serviceURL : string; timeout : Duration }.

Definition NewMoshiChecker (serviceURL : string) (timeout : Duration) : MoshiChecker :=
  {| serviceURL := serviceURL; timeout := timeout |}.

Section Moshi.
Context `{HTTPClient Env}.

Definition MoshiChecker_Check (c : MoshiChecker) (ctx : Context) : M Env CheckResult :=
  start <- Now ;;
  let healthURL := "http://" +:+ serviceURL c +:+ "/health" in
  match NewRequestWithContext ctx "GET" healthURL with
  | Err e =>
      duration <- Since start ;;
      ts <- Now ;;
      ret {| cr_Name := ""; cr_Status := StatusUnhealthy;
             cr_Message := "Failed to create request: " +:+ e;
             cr_Duration := duration; cr_Metadata := ∅; cr_Timestamp := ts |}
  | Ok req =>
      resp <- call (client_Do (timeout c) req) ;;
      duration <- Since start ;;
      match resp with
      | Err e =>
          Error "Moshi health check failed" [FError e; FDuration "duration" duration] ;;
          ts <- Now ;;
          ret {| cr_Name := ""; cr_Status := StatusUnhealthy;
                 cr_Message := "Moshi service unreachable: " +:+ e;
                 cr_Duration := duration; cr_Metadata := ∅; cr_Timestamp := ts |}
      | Ok resp =>
          let metadata : gmap string string :=
            {[ "service_url" := serviceURL c;
               "status_code" := fmt_d (StatusCode resp);
               "content_type" := ContentType resp ]} in
          if (200 <=? StatusCode resp) && (StatusCode resp <? 300) then
            ts <- Now ;;
            ret {| cr_Name := ""; cr_Status := StatusHealthy;
                   cr_Message := "Moshi service responding";
                   cr_Duration := duration; cr_Metadata := metadata; cr_Timestamp := ts |}
          else
            ts <- Now ;;
            ret {| cr_Name := ""; cr_Status := StatusUnhealthy;
                   cr_Message := "Moshi service returned status " +:+ fmt_d (StatusCode resp);
                   cr_Duration := duration; cr_Metadata := metadata; cr_Timestamp := ts |}
      end
  end.

#[export] Instance MoshiChecker_Checker : Checker MoshiChecker := MoshiChecker_Check.
End Moshi.

Record CustomChecker := mkCustomChecker {
  name : string;
  checkFunc : Context -> Ext Env (bool * string * gmap string string)
}.

Definition NewCustomChecker (name : string)
    (checkFunc : Context -> Ext Env (bool * string * gmap string string)) : CustomChecker :=
  {| name := name; checkFunc := checkFunc |}.

Definition CustomChecker_Check (c : CustomChecker) (ctx : Context) : M Env CheckResult :=
  start <- Now ;;
  out <- call (checkFunc c ctx) ;;
  let '(healthy, message, metadata) := (out : bool * string * gmap string string) in
  duration <- Since start ;;
  let status := if negb healthy then StatusUnhealthy else StatusHealthy in
  ts <- Now ;;
  ret {| cr_Name := ""; cr_Status := status; cr_Message := message;
         cr_Duration := duration; cr_Metadata := metadata; cr_Timestamp := ts |}.

#[export] Instance CustomChecker_Checker : Checker CustomChecker := CustomChecker_Check.
End WithEnv.

Arguments AnyChecker : clear implicits.
Arguments Manager : clear implicits.
Arguments Schedule : clear implicits.
Arguments DB : clear implicits.
Arguments DatabaseChecker : clear implicits.
Arguments RedisClient : clear implicits.
Arguments RedisChecker : clear implicits.
Arguments CustomChecker : clear implicits.

End Health.

(** ** The fork and join of one pass, goroutine by goroutine

    [CheckHealth] starts one goroutine per entry of the snapshot, a further
    goroutine that waits for the wait group and closes the channel, and
    collects from the channel until it is closed.  The machine below has one
    step per synchronisation point; which goroutine moves next is chosen by
    a scheduler among the goroutines that can move. *)

Module ForkJoin.
Import Base Health.

(** The goroutines that can be chosen: the one running [CheckHealth], the
    one started for the [i]th entry, the one that closes the channel. *)
Inductive Action :=
| AMain
| AWorker (i : nat)
| ACloser.

(** The goroutine that closes the channel:
    [go func() { wg.Wait(); close(resultCh) }()]. *)
Inductive Closer :=
| CNone
| CWait
| CExit.

Section WithEnv.
Context {Env : Type}.

(** The goroutine of one checker, by the statement it executes next:
    [c.Check(ctx)] with the assignment of the name, the send on the
    channel, the deferred [wg.Done()], nothing. *)
Inductive Worker :=
| WCheck (n : string) (c : AnyChecker Env)
| WSend (result : CheckResult)
| WDone
| WExit.

(** The goroutine running [CheckHealth]: in the loop that starts the
    goroutines (with the entries still to come), in the loop that receives
    from the channel, or past it. *)
Inductive Main :=
| MRange (rest : list (string * AnyChecker Env))
| MCollect
| MReturn.

(** [wg] is the counter of the wait group; [resultCh] is the buffer of the
    channel with its [capacity] and whether it is [closed]; [fault] records
    a run-time panic (a send on a closed channel, a negative wait group
    counter). *)
Record Config := mkConfig {
  main : Main;
  workers : list Worker;
  closer : Closer;
  wg : Z;
  resultCh : list CheckResult;
  capacity : nat;
  closed : bool;
  checks : list CheckResult;
  state : State Env;
  fault : bool
}.

Definition set_main (x : Main) (cfg : Config) : Config :=
  mkConfig x (workers cfg) (closer cfg) (wg cfg) (resultCh cfg) (capacity cfg)
           (closed cfg) (checks cfg) (state cfg) (fault cfg).
Definition set_workers (x : list Worker) (cfg : Config) : Config :=
  mkConfig (main cfg) x (closer cfg) (wg cfg) (resultCh cfg) (capacity cfg)
           (closed cfg) (checks cfg) (state cfg) (fault cfg).
Definition set_closer (x : Closer) (cfg : Config) : Config :=
  mkConfig (main cfg) (workers cfg) x (wg cfg) (resultCh cfg) (capacity cfg)
           (closed cfg) (checks cfg) (state cfg) (fault cfg).
Definition set_wg (x : Z) (cfg : Config) : Config :=
  mkConfig (main cfg) (workers cfg) (closer cfg) x (resultCh cfg) (capacity cfg)
           (closed cfg) (checks cfg) (state cfg) (fault cfg).
Definition set_resultCh (x : list CheckResult) (cfg : Config) : Config :=
  mkConfig (main cfg) (workers cfg) (closer cfg) (wg cfg) x (capacity cfg)
           (closed cfg) (checks cfg) (state cfg) (fault cfg).
Definition set_closed (x : bool) (cfg : Config) : Config :=
  mkConfig (main cfg) (workers cfg) (closer cfg) (wg cfg) (resultCh cfg) (capacity cfg)
           x (checks cfg) (state cfg) (fault cfg).
Definition set_checks (x : list CheckResult) (cfg : Config) : Config :=
  mkConfig (main cfg) (workers cfg) (closer cfg) (wg cfg) (resultCh cfg) (capacity cfg)
           (closed cfg) x (state cfg) (fault cfg).
Definition set_state (x : State Env) (cfg : Config) : Config :=
  mkConfig (main cfg) (workers cfg) (closer cfg) (wg cfg) (resultCh cfg) (capacity cfg)
           (closed cfg) (checks cfg) x (fault cfg).
Definition set_fault (x : bool) (cfg : Config) : Config :=
  mkConfig (main cfg) (workers cfg) (closer cfg) (wg cfg) (resultCh cfg) (capacity cfg)
           (closed cfg) (checks cfg) (state cfg) x.

(** [var checks []CheckResult; var wg sync.WaitGroup;
    resultCh := make(chan CheckResult, len(checkers))], at the head of the
    loop over the snapshot. *)
Definition init (snapshot : gmap string (AnyChecker Env)) (s : State Env) : Config :=
  {| main := MRange (map_to_list snapshot); workers := []; closer := CNone; wg := 0;
     resultCh := []; capacity := size snapshot; closed := false; checks := [];
     state := s; fault := false |}.

(** A step of the goroutine running [CheckHealth]: [wg.Add(1)] and the
    start of the next goroutine; after the last entry the start of the
    closing goroutine; a receive from the channel, which blocks on an empty
    open channel and ends the loop on an empty closed one. *)
Definition step_main (cfg : Config) : Config :=
  match main cfg with
  | MRange (nc :: rest) =>
      set_main (MRange rest)
        (set_wg (wg cfg + 1) (set_workers (workers cfg ++ [WCheck nc.1 nc.2]) cfg))
  | MRange [] => set_main MCollect (set_closer CWait cfg)
  | MCollect =>
      match resultCh cfg with
      | result :: queue => set_checks (checks cfg ++ [result]) (set_resultCh queue cfg)
      | [] => if closed cfg then set_main MReturn cfg else cfg
      end
  | MReturn => cfg
  end.

(** A step of the goroutine of the [i]th entry.  A send blocks while the
    buffer is full and panics on a closed channel; [wg.Done()] panics when
    it would make the counter negative. *)
Definition step_worker (ctx : Context) (i : nat) (cfg : Config) : Config :=
  match workers cfg !! i with
  | Some (WCheck n c) =>
      let (result, s') := run_checker ctx (n, c) (state cfg) in
      set_state s' (set_workers (<[i := WSend result]> (workers cfg)) cfg)
  | Some (WSend result) =>
      if closed cfg then set_fault true cfg
      else if (length (resultCh cfg) <? capacity cfg)%nat
      then set_resultCh (resultCh cfg ++ [result])
             (set_workers (<[i := WDone]> (workers cfg)) cfg)
      else cfg
  | Some WDone =>
      if wg cfg <=? 0 then set_fault true cfg
      else set_wg (wg cfg - 1) (set_workers (<[i := WExit]> (workers cfg)) cfg)
  | Some WExit => cfg
  | None => cfg
  end.

(** A step of the closing goroutine: [wg.Wait()] returns when the counter
    is zero, and the channel is closed. *)
Definition step_closer (cfg : Config) : Config :=
  match closer cfg with
  | CWait => if wg cfg =? 0 then set_closed true (set_closer CExit cfg) else cfg
  | CNone => cfg
  | CExit => cfg
  end.

Definition step (ctx : Context) (a : Action) (cfg : Config) : Config :=
  match a with
  | AMain => step_main cfg
  | AWorker i => step_worker ctx i cfg
  | ACloser => step_closer cfg
  end.

(** Whether a goroutine can move: it exists, has not finished and is not
    blocked; nothing moves after a panic. *)
Definition can (cfg : Config) (a : Action) : bool :=
  negb (fault cfg) &&
  match a with
  | AMain =>
      match main cfg with
      | MRange _ => true
      | MCollect => match resultCh cfg with [] => closed cfg | _ :: _ => true end
      | MReturn => false
      end
  | AWorker i =>
      match workers cfg !! i with
      | Some (WCheck _ _) => true
      | Some (WSend _) => closed cfg || (length (resultCh cfg) <? capacity cfg)%nat
      | Some WDone => true
      | Some WExit => false
      | None => false
      end
  | ACloser =>
      match closer cfg with
      | CWait => wg cfg =? 0
      | CNone => false
      | CExit => false
      end
  end.

Definition enabled (cfg : Config) : list Action :=
  List.filter (can cfg) (AMain :: ACloser :: map AWorker (seq 0 (length (workers cfg)))).

(** One turn of the scheduler: [choice] selects among the goroutines that
    can move; when none can, nothing happens. *)
Definition turn (ctx : Context) (choice : nat) (cfg : Config) : Config :=
  let acts := enabled cfg in
  match acts !! (choice mod length acts)%nat with
  | Some a => step ctx a cfg
  | None => cfg
  end.

(** [n] turns, the [k]th decided by [pick k]. *)
Fixpoint run (ctx : Context) (pick : nat -> nat) (k n : nat) (cfg : Config) : Config :=
  match n with
  | O => cfg
  | S n' => run ctx pick (S k) n' (turn ctx (pick k) cfg)
  end.

(** The number of steps of a pass over [n] checkers: per checker the start
    of its goroutine, its three steps and the receipt of its result; the
    start of the closing goroutine, the close, and the end of the loop. *)
Definition steps (n : nat) : nat := 5 * n + 3.

(** The part of [CheckHealth] after the loop over the channel. *)
Definition report (m : Manager Env) (start : Time) (checks : list CheckResult)
    : M Env HealthResponse :=
  let overallStatus := overall_loop StatusHealthy checks in
  duration <- Since start ;;
  Info "Health check completed"
    [FString "overall_status" overallStatus; FDuration "duration" duration;
     FInt "checks_count" (Z.of_nat (length checks))] ;;
  timestamp <- Now ;;
  uptime <- Since (startTime m) ;;
  ret {| hr_Status := overallStatus; hr_Timestamp := timestamp;
         hr_Service := serviceName m; hr_Version := version m;
         hr_Uptime := uptime; hr_Checks := checks |}.

(** [CheckHealth] under the scheduler [pick]: the goroutines are run for
    [steps] turns; the result is [None] if by then the collecting loop has
    not ended or a panic has occurred. *)
Definition CheckHealth (pick : nat -> nat) (m : Manager Env) (ctx : Context)
    : M Env (option HealthResponse) :=
  fun s =>
    let start := now (world s) in
    let snapshot := checkers m in
    let cfg := run ctx pick 0 (steps (size snapshot)) (init snapshot s) in
    match main cfg, fault cfg with
    | MReturn, false =>
        let (r, s') := report m start (checks cfg) (state cfg) in (Some r, s')
    | _, _ => (None, state cfg)
    end.
End WithEnv.

Arguments Worker : clear implicits.
Arguments Main : clear implicits.
Arguments Config : clear implicits.

End ForkJoin.

(** Vocabulary for the fork and join: what a goroutine still holds and
    still has to do. *)

Section ForkJoinVocabulary.
Import Health ForkJoin.
Context {Env : Type}.

(** The name a goroutine has still to deliver. *)
Definition worker_names (w : Worker Env) : list string :=
  match w with
  | WCheck n _ => [n]
  | WSend r => [cr_Name r]
  | WDone => []
  | WExit => []
  end.

(** Whether the goroutine has yet to call [wg.Done()], whether it has yet to
    send, and the number of steps left for it and for its result. *)
Definition live (w : Worker Env) : nat :=
  match w with WExit => 0 | _ => 1 end.

Definition unsent (w : Worker Env) : nat :=
  match w with WCheck _ _ => 1 | WSend _ => 1 | _ => 0 end.

Definition worker_cost (w : Worker Env) : nat :=
  match w with WCheck _ _ => 4 | WSend _ => 3 | WDone => 1 | WExit => 0 end.

Definition main_rest (mn : Main Env) : list (string * AnyChecker Env) :=
  match mn with MRange rest => rest | _ => [] end.

Definition main_cost (mn : Main Env) : nat :=
  match mn with
  | MRange rest => 5 * length rest + 2
  | MCollect => 1
  | MReturn => 0
  end.

Definition closer_cost (c : Closer) : nat :=
  match c with CExit => 0 | _ => 1 end.

(** The number of steps left. *)
Definition remaining (cfg : Config Env) : nat :=
  main_cost (main cfg) + sum_list_with worker_cost (workers cfg)
  + length (resultCh cfg) + closer_cost (closer cfg).

(** The names not yet started, held by goroutines, in the channel and
    collected. *)
Definition all_names (cfg : Config Env) : list string :=
  (main_rest (main cfg)).*1 ++ concat (worker_names <$> workers cfg)
    ++ (cr_Name <$> resultCh cfg) ++ (cr_Name <$> checks cfg).

(** What holds of every configuration a pass over the names [L] reaches. *)
Definition Inv (L : list string) (cfg : Config Env) : Prop :=
  fault cfg = false
  ∧ all_names cfg ≡ₚ L
  ∧ wg cfg = Z.of_nat (sum_list_with live (workers cfg))
  ∧ (length (main_rest (main cfg)) + sum_list_with unsent (workers cfg)
     + length (resultCh cfg) ≤ capacity cfg)%nat
  ∧ (closer cfg = CNone ↔ ∃ rest, main cfg = MRange rest)
  ∧ (closed cfg = true ↔ closer cfg = CExit)
  ∧ (closer cfg = CExit → sum_list_with live (workers cfg) = 0%nat)
  ∧ (main cfg = MReturn → closed cfg = true ∧ resultCh cfg = []).
End ForkJoinVocabulary.

(** ** Vocabulary of the statements *)

Import Base.

Section ShutdownVocabulary.
Context {Env : Type}.
Implicit Types (m : Shutdown.Manager Env) (s : State Env) (w : World Env).

(** The context that [Shutdown] derives when it starts in state [s]. *)
Definition shutdown_ctx m s : Context :=
  WithTimeout Background (now (world s)) (Shutdown.timeout m).

Definition log_started m : Event :=
  EvLog {| level := LInfo; msg := "Starting graceful shutdown";
           fields := [FDuration "timeout" (Shutdown.timeout m)] |}.

Definition log_completed : Event :=
  EvLog {| level := LInfo; msg := "Graceful shutdown completed"; fields := [] |}.

Definition log_hook_failed (i : nat) (e : string) : Event :=
  EvLog {| level := LError; msg := "Shutdown hook failed";
           fields := [FError e; FInt "hook_index" (Z.of_nat i)] |}.

(** What the call of the hook at index [i] leaves in the trace: the call,
    and the error line with the index when it failed. *)
Definition hook_events (ctx : Context) (i : nat) (t : Time) (err : option string) : list Event :=
  EvHook i ctx t err ::
  match err with
  | Some e => [log_hook_failed i e]
  | None => []
  end.

(** Running the hooks of [l] one after the other from world [w], each in the
    world its predecessor left, whatever it returned.  A hook followed by
    [k] others in [l] is reported under index [k]: with [l] the reversed
    registration sequence this is its registration index. *)
Fixpoint seq_world (ctx : Context) (l : list (Shutdown.Hook Env)) w : World Env :=
  match l with
  | [] => w
  | h :: l' => seq_world ctx l' (h ctx w).2
  end.

Fixpoint seq_events (ctx : Context) (l : list (Shutdown.Hook Env)) w : list Event :=
  match l with
  | [] => []
  | h :: l' =>
      hook_events ctx (length l') (now w) (h ctx w).1 ++ seq_events ctx l' (h ctx w).2
  end.

(** The same loop over an explicit list instead of indices. *)
Fixpoint run_seq (ctx : Context) (l : list (Shutdown.Hook Env)) : M Env unit :=
  match l with
  | [] => ret tt
  | h :: l' => Shutdown.run_hook ctx (length l') h ;; run_seq ctx l'
  end.

(** Ways of triggering a shutdown: a direct call, or a signal received by
    [Listen]. *)
Inductive Trigger :=
| Direct
| Signal (sig : string).

Definition fire m (t : Trigger) : M Env unit :=
  match t with
  | Direct => Shutdown.Shutdown m
  | Signal sig => Shutdown.Listen m sig
  end.

Fixpoint fire_all m (ts : list Trigger) : M Env unit :=
  match ts with
  | [] => ret tt
  | t :: ts' => fire m t ;; fire_all m ts'
  end.

(** The manager after [NewManager(t)] and one [AddHook] per element of
    [hs], in order. *)
Definition registered (t : Duration) (hs : list (Shutdown.Hook Env)) : Shutdown.Manager Env :=
  fold_left Shutdown.AddHook hs (Shutdown.NewManager t).

(** The events a computation adds to the trace of [s]. *)
Definition added {A} (c : M Env A) s : list Event :=
  drop (length (trace s)) (trace (exec c s)).

(** C3 as stated: once a first trigger has run the hooks, a further trigger
    runs none. *)
Definition second_trigger_is_noop m s (t1 t2 : Trigger) : Prop :=
  hook_calls (trace (exec (fire m t1 ;; fire m t2) s)) =
  hook_calls (trace (exec (fire m t1) s)).

(** C5 as stated: no hook is started after the deadline of its context. *)
Definition no_start_after_deadline m s : Prop :=
  ∀ i ctx t err d,
    EvHook i ctx t err ∈ trace (exec (Shutdown.Shutdown m) s) →
    Deadline ctx = Some d → t <= d.

Definition carries_deadline (d : Time) (ev : Event) : Prop :=
  match ev with
  | EvHook _ ctx _ _ => Deadline ctx = Some d
  | _ => True
  end.
End ShutdownVocabulary.

(** ** Sample inputs *)

Module Samples.
Import Shutdown.

(** Hooks over a journal of names: each appends its name and takes
    [cost] nanoseconds; [failing] also returns an error. *)
Definition journal_hook (nm : string) (cost : Duration) : Hook (list string) :=
  fun _ w => (None, {| now := now w + cost; env := env w ++ [nm] |}).

Definition failing_hook (nm : string) (cost : Duration) : Hook (list string) :=
  fun _ w => (Some (nm +:+ " failed"), {| now := now w + cost; env := env w ++ [nm] |}).

Definition s0 : State (list string) :=
  {| world := {| now := 0; env := [] |}; trace := [] |}.

Definition mABC : Manager (list string) :=
  AddHook (AddHook (AddHook (NewManager (30 * Second)) (journal_hook "A" 1))
                   (journal_hook "B" 1)) (journal_hook "C" 1).

Definition mAfailC : Manager (list string) :=
  AddHook (AddHook (AddHook (NewManager (30 * Second)) (journal_hook "A" 1))
                   (failing_hook "B" 1)) (journal_hook "C" 1).

(** Two hooks of ten nanoseconds each under a budget of one. *)
Definition mSlow : Manager (list string) :=
  AddHook (AddHook (NewManager 1) (journal_hook "A" 10)) (journal_hook "B" 10).
End Samples.

(** Vocabulary and samples for package health. *)

Section HealthVocabulary.
Context {Env : Type}.

(** The results of the goroutines of one pass, in the order of arrival,
    starting from state [s]. *)
Fixpoint results_of (ctx : Context) (arrivals : list (string * Health.AnyChecker Env))
    (s : State Env) : list Health.CheckResult :=
  match arrivals with
  | [] => []
  | nc :: rest =>
      (Health.run_checker ctx nc s).1
        :: results_of ctx rest (Health.run_checker ctx nc s).2
  end.

(** [r] is what the checker of the snapshot entry [nc] returned in some
    state, with the name replaced by the key of the entry. *)
Definition produced_by (ctx : Context) (r : Health.CheckResult)
    (nc : string * Health.AnyChecker Env) : Prop :=
  ∃ s', r = Health.set_Name nc.1 (eval (Health.Check_dyn nc.2 ctx) s').

Definition is_unhealthy (c : Health.CheckResult) : Prop :=
  Health.cr_Status c = Health.StatusUnhealthy.

(** The contexts the handlers derive for a request arriving in state [s]. *)
Definition readiness_ctx (r : Health.Request) (s : State Env) : Context :=
  WithTimeout (Health.req_Context r) (now (world s)) (10 * Second).

Definition diagnostic_ctx (r : Health.Request) (s : State Env) : Context :=
  WithTimeout (Health.req_Context r) (now (world s)) (30 * Second).
End HealthVocabulary.

Module HealthSamples.
Import Health.

(** A test double: a checker type that returns a fixed result. *)
Record StaticChecker := mkStaticChecker { static_result : CheckResult }.

#[export] Instance StaticChecker_Checker : Checker (Env:=unit) StaticChecker :=
  fun c _ => ret (static_result c).

Definition static (nm : string) (st : Status) (ts : Time) : AnyChecker unit :=
  toChecker {| static_result :=
    {| cr_Name := nm; cr_Status := st; cr_Message := ""; cr_Duration := 0;
       cr_Metadata := ∅; cr_Timestamp := ts |} |}.

Definition custom_ok : AnyChecker unit :=
  toChecker (NewCustomChecker "ok" (fun _ w => ((true, "ok", ∅), w))).

Definition custom_down : AnyChecker unit :=
  toChecker (NewCustomChecker "down"
    (fun _ w => ((false, "down", {[ "code" := "x" ]}), w))).

Definition hs0 : State unit := {| world := {| now := 1000; env := tt |}; trace := [] |}.

Definition mEmpty : Manager unit :=
  {| serviceName := "phonic"; version := "0.1.0"; startTime := 0; checkers := ∅ |}.

Definition mOk : Manager unit := AddChecker mEmpty "api" custom_ok.

Definition mMixed : Manager unit :=
  AddChecker (AddChecker mEmpty "api" custom_ok) "db" custom_down.

Definition mUnknown : Manager unit :=
  AddChecker mEmpty "cache" (static "" StatusUnknown 1000).

Definition req0 : Request := {| req_Context := Background |}.

(** [time.Time.MarshalJSON] rejects instants whose year lies outside
    [0, 9999]; the bounds are the Unix times of the first instants of the
    years 0 and 10000. *)
Definition year_in_range (t : Time) : bool :=
  (-62167219200 * Second <=? t) && (t <? 253402300800 * Second).

Definition dq : string := String (Ascii.ascii_of_nat 34) EmptyString.

Definition quoted (x : string) : string := dq +:+ x +:+ dq.

Definition render_check (c : CheckResult) : string :=
  "{" +:+ quoted "name" +:+ ":" +:+ quoted (cr_Name c) +:+ ","
      +:+ quoted "status" +:+ ":" +:+ quoted (cr_Status c) +:+ ","
      +:+ quoted "message" +:+ ":" +:+ quoted (cr_Message c) +:+ "}".

(** An encoder in the manner of [json.Marshal], for the examples: it fails
    exactly where [time.Time.MarshalJSON] does, and otherwise renders the
    status and the checks. *)
Definition sample_Marshal (h : HealthResponse) : Result string :=
  if year_in_range (hr_Timestamp h)
     && forallb (fun c => year_in_range (cr_Timestamp c)) (hr_Checks h)
  then Ok ("{" +:+ quoted "status" +:+ ":" +:+ quoted (hr_Status h) +:+ ","
             +:+ quoted "checks" +:+ ":["
             +:+ String.concat "," (map render_check (hr_Checks h)) +:+ "]}")
  else Err "json: error calling MarshalJSON for type time.Time: Time.MarshalJSON: year outside of range [0,9999]".

(** A healthy checker whose result carries a timestamp in the year 10000. *)
Definition mFarFuture : Manager unit :=
  AddChecker mEmpty "clock" (static "" StatusHealthy (253402300800 * Second)).

(** The same with a failing dependency next to it. *)
Definition mFarFutureDown : Manager unit := AddChecker mFarFuture "db" custom_down.

(** Two schedules: results arrive in the order of the snapshot, or in the
    opposite order. *)
Definition fifo : Schedule unit := fun l => l.
Definition lifo : Schedule unit := reverse.

(** A network with one healthy service, one failing service, and nothing
    else reachable. *)
#[export] Instance sample_client : HTTPClient unit := {|
  NewRequestWithContext ctx method url :=
    if String.eqb method "GET"
    then Ok {| creq_Context := ctx; creq_Method := method; creq_URL := url |}
    else Err "net/http: invalid method";
  client_Do timeout req w :=
    if String.eqb (creq_URL req) "http://stt:8080/health"
    then (Ok {| StatusCode := 200; ContentType := "application/json" |},
          {| now := now w + 5; env := env w |})
    else if String.eqb (creq_URL req) "http://tts:8080/health"
    then (Ok {| StatusCode := 503; ContentType := "text/plain" |},
          {| now := now w + 7; env := env w |})
    else (Err "dial tcp: connection refused", {| now := now w + timeout; env := env w |})
|}.
End HealthSamples.

(** ** Package config *)

Module Config.

(** A [float64], by its IEEE 754 bit pattern ([math.Float64bits]); the
    package does no arithmetic on it. *)
Definition float64 := Z.

Record AppConfig := mkAppConfig {
  Name : string;
  Version : string;
  Environment : string;
  Debug : bool;
  app_Port : Z;
  app_Host : string
}.

Record DatabaseConfig := mkDatabaseConfig {
  db_Host : string;
  db_Port : Z;
  Username : string;
  db_Password : string;
  db_Database : string;
  SSLMode : string;
  MaxOpenConns : Z;
  MaxIdleConns : Z;
  ConnMaxLifetime : Base.Duration
}.

Record RedisConfig := mkRedisConfig {
  redis_Host : string;
  redis_Port : Z;
  redis_Password : string;
  redis_Database : Z;
  PoolSize : Z
}.

Record MoshiSTTConfig := mkMoshiSTTConfig {
  stt_Host : string;
  stt_Port : Z;
  stt_WebSocketPath : string;
  stt_Timeout : Base.Duration;
  stt_RetryAttempts : Z;
  SampleRate : Z;
  Channels : Z;
  ChunkSize : Z
}.

Record MoshiTTSConfig := mkMoshiTTSConfig {
  tts_Host : string;
  tts_Port : Z;
  tts_WebSocketPath : string;
  tts_Timeout : Base.Duration;
  tts_RetryAttempts : Z;
  VoiceID : string;
  Speed : float64;
  Quality : string
}.

Record MoshiConfig := mkMoshiConfig { STT : MoshiSTTConfig; TTS : MoshiTTSConfig }.

Record ServiceEndpoint := mkServiceEndpoint {
  ep_Host : string;
  ep_Port : Z;
  ep_Timeout : Base.Duration
}.

Record ServicesConfig := mkServicesConfig {
  Gateway : ServiceEndpoint;
  Session : ServiceEndpoint;
  Orchestrator : ServiceEndpoint;
  STTClient : ServiceEndpoint;
  TTSClient : ServiceEndpoint
}.

Record LoggingConfig := mkLoggingConfig {
  Level : string;
  Format : string;
  Output : string
}.

Record RateLimitConfig := mkRateLimitConfig {
  RequestsPerMinute : Z;
  BurstSize : Z;
  WindowSize : Base.Duration
}.

Record CORSConfig := mkCORSConfig {
  AllowedOrigins : list string;
  AllowedMethods : list string;
  AllowedHeaders : list string
}.

Record SecurityConfig := mkSecurityConfig {
  JWTSecret : string;
  JWTExpiryHours : Z;
  RateLimit : RateLimitConfig;
  CORS : CORSConfig
}.

Record StorageConfig := mkStorageConfig {
  Endpoint : string;
  AccessKey : string;
  SecretKey : string;
  Bucket : string;
  Region : string;
  UseSSL : bool;
  AudioRetentionDays : Z
}.

Record Config := mkConfig {
  App : AppConfig;
  Database : DatabaseConfig;
  Redis : RedisConfig;
  Moshi : MoshiConfig;
  Services : ServicesConfig;
  Logging : LoggingConfig;
  Security : SecurityConfig;
  Storage : StorageConfig
}.

(** The process environment; [os.Getenv] yields the empty string for a
    variable that is not set. *)
Definition Getenv (environ : gmap string string) (key : string) : string :=
  default "" (environ !! key).

Definition getEnvironment (environ : gmap string string) : string :=
  let env := Getenv environ "PHONIC_ENV" in
  let env := if String.eqb env "" then Getenv environ "ENV" else env in
  let env := if String.eqb env "" then "dev" else env in
  env.

(** The two membership loops of [validateConfig]:
    [for _, v := range valid { if x == v { found = true; break } }]. *)
Fixpoint valid_loop (x : string) (valid : list string) (found : bool) : bool :=
  match valid with
  | [] => found
  | v :: rest => if String.eqb x v then true else valid_loop x rest found
  end.

(** [fmt.Sprintf("%v", l)] for a slice of strings. *)
Definition fmt_v (l : list string) : string :=
  "[" +:+ String.concat " " l +:+ "]".

(** [validateConfig]; [None] is the nil error. *)
Definition validateConfig (config : Config) : option string :=
  if String.eqb (Name (App config)) "" then Some "app.name is required"
  else if String.eqb (db_Host (Database config)) "" then Some "database.host is required"
  else if String.eqb (redis_Host (Redis config)) "" then Some "redis.host is required"
  else if String.eqb (stt_Host (STT (Moshi config))) "" then Some "moshi.stt.host is required"
  else if String.eqb (tts_Host (TTS (Moshi config))) "" then Some "moshi.tts.host is required"
  else
    let validEnvs := ["dev"; "staging"; "prod"] in
    let envValid := valid_loop (Environment (App config)) validEnvs false in
    if negb envValid
    then Some ("app.environment must be one of: " +:+ fmt_v validEnvs)
    else
      let validLevels := ["debug"; "info"; "warn"; "error"] in
      let levelValid := valid_loop (Level (Logging config)) validLevels false in
      if negb levelValid
      then Some ("logging.level must be one of: " +:+ fmt_v validLevels)
      else None.

Definition GetDatabaseURL (c : Config) : string :=
  "postgres://" +:+ Username (Database c) +:+ ":" +:+ db_Password (Database c)
    +:+ "@" +:+ db_Host (Database c) +:+ ":" +:+ Base.fmt_d (db_Port (Database c))
    +:+ "/" +:+ db_Database (Database c) +:+ "?sslmode=" +:+ SSLMode (Database c).

Definition GetRedisAddr (c : Config) : string :=
  redis_Host (Redis c) +:+ ":" +:+ Base.fmt_d (redis_Port (Redis c)).

Definition GetMoshiSTTURL (c : Config) : string :=
  let protocol := "ws" in
  protocol +:+ "://" +:+ stt_Host (STT (Moshi c)) +:+ ":"
    +:+ Base.fmt_d (stt_Port (STT (Moshi c))) +:+ stt_WebSocketPath (STT (Moshi c)).

Definition GetMoshiTTSURL (c : Config) : string :=
  let protocol := "ws" in
  protocol +:+ "://" +:+ tts_Host (TTS (Moshi c)) +:+ ":"
    +:+ Base.fmt_d (tts_Port (TTS (Moshi c))) +:+ tts_WebSocketPath (TTS (Moshi c)).

Definition IsDevelopment (c : Config) : bool := String.eqb (Environment (App c)) "dev".

Definition IsProduction (c : Config) : bool := String.eqb (Environment (App c)) "prod".

End Config.

(** ** Package middleware *)

Module Middleware.
Import Base.

(** An incoming request, as far as the middleware reads it: the method, the
    path of the URL, and the headers under their canonical names with
    [Header.Get] yielding the empty string for a header that is absent. *)
Record Request := mkRequest {
  Method : string;
  Path : string;
  RawQuery : string;
  RemoteAddr : string;
  ContentLength : Z;
  req_Header : gmap string string;
  req_Values : gmap string string
}.

Definition Header_Get (r : Request) (key : string) : string :=
  default "" (req_Header r !! key).

(** [r.UserAgent()]. *)
Definition UserAgent (r : Request) : string := Header_Get r "User-Agent".

(** [logger.WithContext(ctx)]: the fields that the logger gains from the
    values of the context.  [req_Values] holds the values of the request
    context under the keys of package logger ([TraceIDKey], [RequestIDKey],
    [ServiceKey]); a value is a text, as the type assertions of
    [WithContext] require.  The fields precede those of the logging call. *)
Definition TraceIDKey : string := "traceID".
Definition RequestIDKey : string := "requestID".
Definition ServiceKey : string := "service".

Definition WithContext (values : gmap string string) : list Field :=
  let fields := [] in
  let fields := match values !! TraceIDKey with
                | Some traceID => fields ++ [FString "trace_id" traceID]
                | None => fields
                end in
  let fields := match values !! RequestIDKey with
                | Some requestID => fields ++ [FString "request_id" requestID]
                | None => fields
                end in
  let fields := match values !! ServiceKey with
                | Some service => fields ++ [FString "service_name" service]
                | None => fields
                end in
  fields.

(** [joinStrings]: the loop [for i := 1; i < len(slice); i++] runs over the
    elements after the first. *)
Fixpoint join_loop (rest : list string) (separator result : string) : string :=
  match rest with
  | [] => result
  | x :: rest' => join_loop rest' separator (result +:+ (separator +:+ x))
  end.

Definition joinStrings (slice : list string) (separator : string) : string :=
  match slice with
  | [] => ""
  | [x] => x
  | x :: rest => join_loop rest separator x
  end.

(** [for _, allowedOrigin := range allowedOrigins { if allowedOrigin == "*"
    || allowedOrigin == origin { allowed = true; break } }]. *)
Fixpoint allowed_loop (origin : string) (allowedOrigins : list string) (allowed : bool) : bool :=
  match allowedOrigins with
  | [] => allowed
  | allowedOrigin :: rest =>
      if String.eqb allowedOrigin "*" || String.eqb allowedOrigin origin
      then true
      else allowed_loop origin rest allowed
  end.

Section WithEnv.
Context {Env : Type}.

(** An [http.Handler].  Its result is the response writer as the handler
    left it and, when the handler panicked, the text of the panic value. *)
Definition Handler := Health.ResponseWriter -> Request -> M Env (Health.ResponseWriter * option string).

Definition CORS (allowedOrigins allowedMethods allowedHeaders : list string)
    (next : Handler) : Handler :=
  fun w r =>
    let origin := Header_Get r "Origin" in
    let allowed := allowed_loop origin allowedOrigins false in
    let w := if allowed then Health.Header_Set "Access-Control-Allow-Origin" origin w else w in
    let w := Health.Header_Set "Access-Control-Allow-Methods" (joinStrings allowedMethods ", ") w in
    let w := Health.Header_Set "Access-Control-Allow-Headers" (joinStrings allowedHeaders ", ") w in
    let w := Health.Header_Set "Access-Control-Allow-Credentials" "true" w in
    if String.eqb (Method r) "OPTIONS"
    then ret (Health.WriteHeader Health.StatusOK w, None)
    else next w r.

(** [HTTPLogging]: when the next handler panics, the panic unwinds through
    this middleware and the completion is not logged. *)
Definition HTTPLogging (next : Handler) : Handler :=
  fun w r =>
    start <- Now ;;
    let log := WithContext (req_Values r) in
    Info "HTTP request started"
      (log ++ [FString "method" (Method r); FString "path" (Path r);
               FString "query" (RawQuery r); FString "user_agent" (UserAgent r);
               FString "remote_addr" (RemoteAddr r);
               FInt "content_length" (ContentLength r)]) ;;
    out <- next w r ;;
    match out.2 with
    | Some _ => ret out
    | None =>
        duration <- Since start ;;
        Info "HTTP request completed" (log ++ [FDuration "duration" duration]) ;;
        ret out
    end.

(** [Recovery]: the deferred function runs [recover()]; the panic value is
    logged with [zap.Any], which for a text is [zap.String]. *)
Definition Recovery (next : Handler) : Handler :=
  fun w r =>
    out <- next w r ;;
    match out.2 with
    | Some err =>
        let log := WithContext (req_Values r) in
        Error "HTTP handler panic"
          (log ++ [FString "panic" err; FString "method" (Method r);
                   FString "path" (Path r)]) ;;
        ret (Health.http_Error out.1 "Internal Server Error" Health.StatusInternalServerError,
             None)
    | None => ret out
    end.

(** A unary gRPC handler returns a response and an error, or panics. *)
Inductive RPCError :=
| StatusError (code : string) (desc : string)
| OtherError (text : string).

Inductive RPCOutcome (Resp : Type) :=
| Returned (resp : option Resp) (err : option RPCError)
| Panicked (value : string).
Arguments Returned {Resp} resp err.
Arguments Panicked {Resp} value.

Definition UnaryHandler (Req Resp : Type) : Type :=
  gmap string string -> Req -> M Env (RPCOutcome Resp).

(** [GRPCRecoveryInterceptor]; [values] are the values of [ctx] and
    [FullMethod] is [info.FullMethod].  After a panic the named results are
    the nil response and the status error. *)
Definition GRPCRecoveryInterceptor {Req Resp : Type} (values : gmap string string)
    (req : Req) (FullMethod : string) (handler : UnaryHandler Req Resp)
    : M Env (RPCOutcome Resp) :=
  out <- handler values req ;;
  match out with
  | Panicked r =>
      let log := WithContext values in
      Error "gRPC handler panic" (log ++ [FString "panic" r; FString "method" FullMethod]) ;;
      ret (Returned None (Some (StatusError "Internal" "Internal server error")))
  | Returned resp err => ret (Returned resp err)
  end.
End WithEnv.

Arguments Handler : clear implicits.
Arguments UnaryHandler : clear implicits.
Arguments Returned {Resp} resp err.
Arguments Panicked {Resp} value.

End Middleware.

(** Vocabulary and samples for the further properties. *)

(** An error line of the logger, and a hook call that returned an error. *)
Definition is_error_line (ev : Event) : bool :=
  match ev with
  | EvLog e => match level e with LError => true | LInfo => false end
  | _ => false
  end.

Definition is_failed_call (ev : Event) : bool :=
  match ev with
  | EvHook _ _ _ (Some _) => true
  | _ => false
  end.

(** The four headers that [CORS] may set. *)
Definition cors_headers : list string :=
  ["Access-Control-Allow-Origin"; "Access-Control-Allow-Methods";
   "Access-Control-Allow-Headers"; "Access-Control-Allow-Credentials"].

Module MoreSamples.
Import Config.

(** The configuration made of the values of [setDefaults]; a key without a
    default has the zero value of its type. *)
Definition defaults : Config := {|
  App := {| Name := "Phonic AI Calling Agent"; Version := ""; Environment := "dev";
            Debug := true; app_Port := 0; app_Host := "0.0.0.0" |};
  Database := {| db_Host := "localhost"; db_Port := 5432; Username := "phonic";
                 db_Password := "phonic_dev_password"; db_Database := "phonic";
                 SSLMode := "disable"; MaxOpenConns := 25; MaxIdleConns := 10;
                 ConnMaxLifetime := 3600 * Second |};
  Redis := {| redis_Host := "localhost"; redis_Port := 6379; redis_Password := "";
              redis_Database := 0; PoolSize := 10 |};
  Moshi := {|
    STT := {| stt_Host := "localhost"; stt_Port := 8001; stt_WebSocketPath := "/transcribe";
              stt_Timeout := 30 * Second; stt_RetryAttempts := 3; SampleRate := 16000;
              Channels := 1; ChunkSize := 1600 |};
    TTS := {| tts_Host := "localhost"; tts_Port := 8002; tts_WebSocketPath := "/synthesize";
              tts_Timeout := 30 * Second; tts_RetryAttempts := 3; VoiceID := "default";
              Speed := 4607182418800017408; Quality := "high" |} |};
  Services := {|
    Gateway := {| ep_Host := "localhost"; ep_Port := 8080; ep_Timeout := 30 * Second |};
    Session := {| ep_Host := "localhost"; ep_Port := 8083; ep_Timeout := 30 * Second |};
    Orchestrator := {| ep_Host := "localhost"; ep_Port := 8084; ep_Timeout := 30 * Second |};
    STTClient := {| ep_Host := ""; ep_Port := 0; ep_Timeout := 0 |};
    TTSClient := {| ep_Host := ""; ep_Port := 0; ep_Timeout := 0 |} |};
  Logging := {| Level := "info"; Format := "json"; Output := "stdout" |};
  Security := {|
    JWTSecret := ""; JWTExpiryHours := 24;
    RateLimit := {| RequestsPerMinute := 100; BurstSize := 50; WindowSize := 60 * Second |};
    CORS := {| AllowedOrigins := []; AllowedMethods := []; AllowedHeaders := [] |} |};
  Storage := {| Endpoint := "localhost:9000"; AccessKey := "phonic";
                SecretKey := "phonic_dev_password"; Bucket := "phonic-audio";
                Region := "us-east-1"; UseSSL := false; AudioRetentionDays := 30 |}
|}.

(** The same with the environment set to staging. *)
Definition staging : Config := {|
  App := {| Name := Name (App defaults); Version := Version (App defaults);
            Environment := "staging"; Debug := Debug (App defaults);
            app_Port := app_Port (App defaults); app_Host := app_Host (App defaults) |};
  Database := Database defaults; Redis := Redis defaults; Moshi := Moshi defaults;
  Services := Services defaults; Logging := Logging defaults;
  Security := Security defaults; Storage := Storage defaults
|}.

Definition get_request : Middleware.Request :=
  {| Middleware.Method := "GET"; Middleware.Path := "/health";
     Middleware.RawQuery := ""; Middleware.RemoteAddr := "10.0.0.7:51000";
     Middleware.ContentLength := 0;
     Middleware.req_Header := {[ "Origin" := "https://app.example" ]};
     Middleware.req_Values := {[ "traceID" := "abc123" ]} |}.

Definition options_request : Middleware.Request :=
  {| Middleware.Method := "OPTIONS"; Middleware.Path := "/health";
     Middleware.RawQuery := ""; Middleware.RemoteAddr := "10.0.0.7:51000";
     Middleware.ContentLength := 0;
     Middleware.req_Header := {[ "Origin" := "https://app.example" ]};
     Middleware.req_Values := ∅ |}.

(** Three handlers: one that answers, one that panics before it has
    written anything, one that panics after it has answered 200. *)
Definition ok_handler : Middleware.Handler unit :=
  fun w _ => ret (Health.Write "ok" w, None).

Definition panics_early : Middleware.Handler unit :=
  fun w _ => ret (w, Some "boom").

Definition panics_late : Middleware.Handler unit :=
  fun w _ => ret (Health.Write "partial" w, Some "boom").

(** A database that answers the ping in three nanoseconds, and one whose
    ping fails after five. *)
Definition db_up : Health.DB unit := {|
  Health.PingContext _ w := (None, {| now := now w + 3; env := env w |});
  Health.Stats w := ({| Health.OpenConnections := 4; Health.InUse := 1; Health.Idle := 3 |},
                     {| now := now w + 1; env := env w |})
|}.

Definition db_down : Health.DB unit := {|
  Health.PingContext _ w := (Some "connection refused", {| now := now w + 5; env := env w |});
  Health.Stats w := ({| Health.OpenConnections := 0; Health.InUse := 0; Health.Idle := 0 |}, w)
|}.
End MoreSamples.

(** ** Properties of package shutdown *)

Section ShutdownProperties.
Context {Env : Type}.
Implicit Types (m : Shutdown.Manager Env) (s : State Env) (w : World Env).

Lemma hook_calls_app (tr1 tr2 : list Event) :
  hook_calls (tr1 ++ tr2) = hook_calls tr1 ++ hook_calls tr2.
Proof. apply omap_app. Qed.

Lemma run_hook_spec ctx i (h : Shutdown.Hook Env) s :
  Shutdown.run_hook ctx i h s =
  (tt, {| world := (h ctx (world s)).2;
          trace := trace s ++ hook_events ctx i (now (world s)) (h ctx (world s)).1 |}).
Proof.
  unfold Shutdown.run_hook, bind, Now, call, emit, Error, ret, hook_events, log_hook_failed.
  destruct (h ctx (world s)) as [[e|] w']; simpl; [|reflexivity].
  unfold emit; simpl. by rewrite <- app_assoc.
Qed.

Lemma run_seq_spec ctx (l : list (Shutdown.Hook Env)) s :
  run_seq ctx l s =
  (tt, {| world := seq_world ctx l (world s);
          trace := trace s ++ seq_events ctx l (world s) |}).
Proof.
  revert s. induction l as [|h l IH]; intros s; simpl.
  - unfold ret. destruct s; simpl. by rewrite app_nil_r.
  - unfold bind. rewrite run_hook_spec, IH. simpl. by rewrite <- app_assoc.
Qed.

(** The index loop is the sequential run of the reversed prefix. *)
Lemma run_hooks_run_seq ctx (hs : list (Shutdown.Hook Env)) (n : nat) :
  (n <= length hs)%nat →
  Shutdown.run_hooks hs ctx n = run_seq ctx (rev (take n hs)).
Proof.
  induction n as [|i IH]; intros Hn; simpl.
  - reflexivity.
  - destruct (lookup_lt_is_Some_2 hs i) as [h Hh]; [lia|].
    rewrite Hh, (take_S_r _ _ _ Hh), rev_unit. simpl.
    rewrite length_rev, length_take, Nat.min_l by lia.
    rewrite IH by lia. reflexivity.
Qed.

Lemma Shutdown_spec m s :
  Shutdown.Shutdown m s =
  (tt, {| world := seq_world (shutdown_ctx m s) (rev (Shutdown.hooks m)) (world s);
          trace := trace s ++ [log_started m]
                     ++ seq_events (shutdown_ctx m s) (rev (Shutdown.hooks m)) (world s)
                     ++ [log_completed] |}).
Proof.
  unfold Shutdown.Shutdown, bind, Now, Info, emit. simpl.
  rewrite run_hooks_run_seq by lia. rewrite firstn_all, run_seq_spec. simpl.
  unfold shutdown_ctx, log_started, log_completed.
  by rewrite <- !app_assoc.
Qed.

Lemma hook_calls_seq_events ctx (l : list (Shutdown.Hook Env)) w :
  hook_calls (seq_events ctx l w) = rev (seq 0 (length l)).
Proof.
  revert w. induction l as [|h l IH]; intros w; [reflexivity|].
  cbn [seq_events length]. rewrite hook_calls_app, IH, seq_S, rev_unit.
  unfold hook_events. destruct (h ctx w).1; reflexivity.
Qed.

Lemma hooks_fold_AddHook (hs : list (Shutdown.Hook Env)) m :
  Shutdown.hooks (fold_left Shutdown.AddHook hs m) = Shutdown.hooks m ++ hs
  ∧ Shutdown.timeout (fold_left Shutdown.AddHook hs m) = Shutdown.timeout m.
Proof.
  revert m. induction hs as [|h hs IH]; intros m; simpl.
  - by rewrite app_nil_r.
  - destruct (IH (Shutdown.AddHook m h)) as [-> ->]. simpl.
    by rewrite <- app_assoc.
Qed.

Lemma hooks_registered t (hs : list (Shutdown.Hook Env)) :
  Shutdown.hooks (registered t hs) = hs.
Proof. unfold registered. by rewrite (proj1 (hooks_fold_AddHook hs _)). Qed.

Lemma added_Shutdown m s :
  added (Shutdown.Shutdown m) s =
  [log_started m]
    ++ seq_events (shutdown_ctx m s) (rev (Shutdown.hooks m)) (world s)
    ++ [log_completed].
Proof.
  unfold added, exec. rewrite Shutdown_spec. simpl.
  by rewrite drop_app_length.
Qed.

(** Every hook of [l] is called in some world, and a failure is followed by
    its error line. *)
Lemma seq_events_each ctx (l : list (Shutdown.Hook Env)) w k h :
  l !! k = Some h →
  ∃ w', hook_events ctx (length l - 1 - k) (now w') (h ctx w').1 ⊆ seq_events ctx l w.
Proof.
  revert w k. induction l as [|h0 l IH]; intros w k Hk; [done|].
  destruct k as [|k]; simpl in Hk.
  - injection Hk as ->. exists w. cbn [seq_events length].
    replace (S (length l) - 1 - 0)%nat with (length l) by lia.
    intros ev Hev. apply elem_of_app. by left.
  - destruct (IH (h0 ctx w).2 k Hk) as [w' Hw']. exists w'.
    cbn [seq_events length].
    replace (S (length l) - 1 - S k)%nat with (length l - 1 - k)%nat by lia.
    intros ev Hev. apply elem_of_app. right. by apply Hw'.
Qed.

Lemma seq_events_carry ctx (l : list (Shutdown.Hook Env)) w d :
  Deadline ctx = Some d → Forall (carries_deadline d) (seq_events ctx l w).
Proof.
  intros Hd. revert w. induction l as [|h l IH]; intros w; simpl; [constructor|].
  constructor; [exact Hd|]. apply Forall_app. split; [|apply IH].
  destruct (h ctx w).1; repeat constructor.
Qed.

(** C4: hooks registered by [AddHook] in the order [hs] are run by
    [Shutdown] one after the other in reverse registration order, each in
    the world its predecessor left; every hook is called whatever the
    others returned, and a hook that returns an error leaves an error line
    carrying its registration index before the next hook is called. *)
Theorem Shutdown_reverse_order_continues (t : Duration)
    (hs : list (Shutdown.Hook Env)) s :
  let m := registered t hs in
  let ctx := shutdown_ctx m s in
  let st := exec (Shutdown.Shutdown m) s in
  world st = seq_world ctx (rev hs) (world s)
  ∧ trace st = trace s ++ [log_started m] ++ seq_events ctx (rev hs) (world s)
                 ++ [log_completed]
  ∧ hook_calls (added (Shutdown.Shutdown m) s) = rev (seq 0 (length hs))
  ∧ ∀ i h, hs !! i = Some h →
      ∃ w', hook_events ctx i (now w') (h ctx w').1 ⊆ trace st.
Proof.
  intros m ctx st. subst st. unfold exec. rewrite Shutdown_spec. simpl.
  assert (Hhs : Shutdown.hooks m = hs) by apply hooks_registered.
  rewrite Hhs. fold ctx. repeat split.
  - rewrite added_Shutdown, !hook_calls_app, hook_calls_seq_events, Hhs.
    simpl. by rewrite app_nil_r, length_rev.
  - intros i h Hi.
    assert (Hlt : (i < length hs)%nat) by (eapply lookup_lt_Some; eauto).
    assert (Hr : rev hs !! (length hs - 1 - i)%nat = Some h).
    { rewrite rev_alt. change (rev_append hs []) with (reverse hs).
      rewrite reverse_lookup by (unfold Shutdown.Hook, Ext in *; lia).
      rewrite <- Hi. f_equal. unfold Shutdown.Hook, Ext in *. lia. }
    destruct (seq_events_each ctx (rev hs) (world s) _ h Hr) as [w' Hw'].
    exists w'. rewrite length_rev in Hw'.
    replace (length hs - 1 - (length hs - 1 - i))%nat with i in Hw'
      by (unfold Shutdown.Hook, Ext in *; lia).
    intros ev Hev. apply elem_of_app. right.
    apply list_elem_of_further. apply elem_of_app. left. by apply Hw'.
Qed.

Lemma fire_hook_calls m s (t : Trigger) :
  hook_calls (trace (exec (fire m t) s)) =
  hook_calls (trace s) ++ rev (seq 0 (length (Shutdown.hooks m))).
Proof.
  destruct t as [|sig]; unfold exec, fire.
  - rewrite Shutdown_spec. cbn [snd trace].
    rewrite !hook_calls_app, hook_calls_seq_events, length_rev. simpl.
    by rewrite app_nil_r.
  - unfold Shutdown.Listen, bind, Info, emit. rewrite Shutdown_spec.
    cbn [snd trace].
    rewrite !hook_calls_app, hook_calls_seq_events, length_rev. simpl.
    by rewrite !app_nil_r.
Qed.

(** C3, amended: the manager keeps no latch.  Every trigger, a signal
    received by [Listen] or a direct call of [Shutdown], runs the whole
    hook sequence again in reverse registration order: after [k] triggers
    each hook has been called [k] times. *)
Theorem every_trigger_runs_all_hooks m s (ts : list Trigger) :
  hook_calls (trace (exec (fire_all m ts) s)) =
  hook_calls (trace s)
    ++ concat (replicate (length ts) (rev (seq 0 (length (Shutdown.hooks m))))).
Proof.
  revert s. induction ts as [|t ts IH]; intros s; simpl.
  - by rewrite app_nil_r.
  - unfold exec, bind in *.
    pose proof (fire_hook_calls m s t) as Hf. unfold exec in Hf.
    destruct (fire m t s) as [[] s1]. simpl in Hf.
    rewrite IH, Hf. by rewrite <- app_assoc.
Qed.

(** C5, amended: [Shutdown] derives one deadline, the start instant plus
    the configured timeout, and hands it to every hook in the shared
    context, but never consults it itself: whatever the timeout and however
    long the hooks take, every registered hook is called, and [Shutdown]
    returns in the world left by the hook registered first. *)
Theorem Shutdown_calls_every_hook_with_shared_deadline m s :
  let d := now (world s) + Shutdown.timeout m in
  let new := added (Shutdown.Shutdown m) s in
  Forall (carries_deadline d) new
  ∧ hook_calls new = rev (seq 0 (length (Shutdown.hooks m)))
  ∧ world (exec (Shutdown.Shutdown m) s) =
      seq_world {| Deadline := Some d |} (rev (Shutdown.hooks m)) (world s).
Proof.
  intros d new. subst new. rewrite added_Shutdown.
  assert (Hctx : shutdown_ctx m s = {| Deadline := Some d |}) by reflexivity.
  repeat split.
  - apply Forall_app. split; [repeat constructor|].
    apply Forall_app. split; [|repeat constructor].
    by apply seq_events_carry.
  - rewrite !hook_calls_app, hook_calls_seq_events, length_rev. simpl.
    by rewrite app_nil_r.
  - unfold exec. rewrite Shutdown_spec, Hctx. reflexivity.
Qed.
End ShutdownProperties.

(** The ordered side-effect log of the hooks A, B, C. *)
Example shutdown_ABC_journal :
  env (world (exec (Shutdown.Shutdown Samples.mABC) Samples.s0)) = ["C"; "B"; "A"].
Proof. reflexivity. Qed.

(** A failing hook between two succeeding ones. *)
Example shutdown_failing_hook_between :
  env (world (exec (Shutdown.Shutdown Samples.mAfailC) Samples.s0)) = ["C"; "B"; "A"]
  ∧ hook_calls (trace (exec (Shutdown.Shutdown Samples.mAfailC) Samples.s0)) = [2; 1; 0]%nat
  ∧ log_hook_failed 1 "B failed" ∈ trace (exec (Shutdown.Shutdown Samples.mAfailC) Samples.s0).
Proof.
  repeat split.
  vm_compute. repeat first [apply list_elem_of_here | apply list_elem_of_further].
Qed.

(** A signal followed by a direct call: the three hooks run twice. *)
Example double_trigger_hook_calls :
  hook_calls (trace (exec (fire Samples.mABC (Signal "interrupt") ;; fire Samples.mABC Direct)
                          Samples.s0)) = [2; 1; 0; 2; 1; 0]%nat
  ∧ env (world (exec (fire Samples.mABC (Signal "interrupt") ;; fire Samples.mABC Direct)
                     Samples.s0)) = ["C"; "B"; "A"; "C"; "B"; "A"].
Proof. split; reflexivity. Qed.

(** Two hooks of ten nanoseconds under a budget of one: both run, the
    second is called at instant 10, and the shutdown ends at instant 20. *)
Example slow_hooks_overrun_budget :
  trace (exec (Shutdown.Shutdown Samples.mSlow) Samples.s0) =
    [log_started Samples.mSlow;
     EvHook 1 {| Deadline := Some 1 |} 0 None;
     EvHook 0 {| Deadline := Some 1 |} 10 None;
     log_completed]
  ∧ world (exec (Shutdown.Shutdown Samples.mSlow) Samples.s0)
    = {| now := 20; env := ["B"; "A"] |}.
Proof. split; reflexivity. Qed.

(** C3 as stated fails: after a signal has run the hooks, a direct call
    runs all of them a second time. *)
Lemma second_trigger_runs_hooks_again :
  ¬ second_trigger_is_noop Samples.mABC Samples.s0 (Signal "interrupt") Direct.
Proof. unfold second_trigger_is_noop. vm_compute. discriminate. Qed.

(** C5 as stated fails: with a budget of one nanosecond and two hooks of
    ten nanoseconds each, the second hook to run is started at instant 10,
    after the deadline 1. *)
Lemma hook_started_after_deadline :
  ¬ no_start_after_deadline Samples.mSlow Samples.s0.
Proof.
  intros H.
  specialize (H 0%nat {| Deadline := Some 1 |} 10 None 1).
  assert (Hle : 10 <= 1); [|lia].
  apply H; [|reflexivity].
  vm_compute. repeat first [apply list_elem_of_here | apply list_elem_of_further].
Qed.

(** ** Properties of package health *)

Section HealthProperties.
Import Health.
Context {Env : Type}.
Implicit Types (m : Manager Env) (s : State Env) (sched : Schedule Env).

Lemma run_checker_spec ctx (nc : string * AnyChecker Env) s :
  (run_checker ctx nc s).1 =
  set_Name nc.1
    (eval (Check_dyn nc.2 ctx)
          {| world := world s; trace := trace s ++ [EvCheck nc.1] |}).
Proof.
  unfold run_checker, bind, emit, ret, eval. simpl.
  by destruct (Check_dyn nc.2 ctx _).
Qed.

Lemma collect_spec ctx (l : list (string * AnyChecker Env)) (acc : list CheckResult) s :
  eval (collect ctx l acc) s = acc ++ results_of ctx l s.
Proof.
  revert acc s. induction l as [|nc l IH]; intros acc s; simpl.
  - by rewrite app_nil_r.
  - unfold eval, bind in *.
    destruct (run_checker ctx nc s) as [r s1]. simpl.
    by rewrite IH, <- app_assoc.
Qed.

Lemma results_of_names ctx (l : list (string * AnyChecker Env)) s :
  cr_Name <$> results_of ctx l s = l.*1.
Proof.
  revert s. induction l as [|nc l IH]; intros s; simpl; [done|].
  rewrite run_checker_spec. simpl. f_equal. apply IH.
Qed.

Lemma results_of_produced ctx (l : list (string * AnyChecker Env)) s :
  Forall2 (fun r nc => cr_Name r = nc.1 ∧ produced_by ctx r nc) (results_of ctx l s) l.
Proof.
  revert s. induction l as [|nc l IH]; intros s; simpl; constructor; [|apply IH].
  rewrite run_checker_spec. split; [done|]. by eexists.
Qed.

Lemma CheckHealth_checks sched m ctx s :
  hr_Checks (eval (CheckHealth sched m ctx) s) =
  results_of ctx (sched (map_to_list (checkers m))) s.
Proof.
  pose proof (collect_spec ctx (sched (map_to_list (checkers m))) [] s) as Hc.
  unfold CheckHealth, eval, bind, Now, Since, Info, emit, ret in *. simpl.
  destruct (collect ctx _ [] s) as [checks s1]. simpl in *. exact Hc.
Qed.

Lemma CheckHealth_status sched m ctx s :
  hr_Status (eval (CheckHealth sched m ctx) s) =
  overall_loop StatusHealthy (hr_Checks (eval (CheckHealth sched m ctx) s)).
Proof.
  unfold CheckHealth, eval, bind, Now, Since, Info, emit, ret. simpl.
  by destruct (collect ctx _ [] s) as [checks s1].
Qed.

(** Every pass ends by handing its summary line to the logger. *)
Lemma CheckHealth_logs sched m ctx s :
  ∃ e, last (trace (exec (CheckHealth sched m ctx) s)) = Some (EvLog e)
       ∧ msg e = "Health check completed".
Proof.
  unfold CheckHealth, exec, bind, Now, Since, Info, emit, ret. simpl.
  destruct (collect ctx _ [] s) as [checks s1]. simpl.
  eexists. rewrite last_snoc. split; reflexivity.
Qed.

Lemma overall_loop_unhealthy (checks : list CheckResult) :
  overall_loop StatusHealthy checks = StatusUnhealthy ↔ Exists is_unhealthy checks.
Proof.
  induction checks as [|c checks IH]; simpl.
  - split; [discriminate | intros H; inversion H].
  - destruct (String.eqb_spec (cr_Status c) StatusUnhealthy) as [Heq|Hne].
    + split; [intros _; by constructor | done].
    + rewrite IH. split; [by constructor 2|].
      intros H; inversion H; subst; [contradiction | assumption].
Qed.

Lemma overall_loop_two_valued (checks : list CheckResult) :
  overall_loop StatusHealthy checks = StatusHealthy
  ∨ overall_loop StatusHealthy checks = StatusUnhealthy.
Proof.
  induction checks as [|c checks IH]; simpl; [by left|].
  destruct (String.eqb (cr_Status c) StatusUnhealthy); [by right | exact IH].
Qed.

(** C1: the aggregate status of a pass is Unhealthy if and only if one of
    the contained results is Unhealthy, and Healthy otherwise, whatever
    else the statuses are; it is never Unknown. *)
Theorem CheckHealth_unhealthy_iff_some_check_unhealthy sched m ctx s :
  let r := eval (CheckHealth sched m ctx) s in
  (hr_Status r = StatusUnhealthy ↔ Exists is_unhealthy (hr_Checks r))
  ∧ (hr_Status r = StatusHealthy ↔ ¬ Exists is_unhealthy (hr_Checks r))
  ∧ hr_Status r ≠ StatusUnknown.
Proof.
  intros r. subst r. rewrite CheckHealth_status.
  set (checks := hr_Checks _).
  pose proof (overall_loop_unhealthy checks) as Hu.
  destruct (overall_loop_two_valued checks) as [Hh|Hh]; rewrite Hh in *.
  - split; [exact Hu|]. split; [|discriminate].
    split; [intros _ Hex; apply Hu in Hex; discriminate | done].
  - split; [exact Hu|]. split; [|discriminate].
    split; [discriminate | intros Hn; destruct Hn; by apply Hu].
Qed.

(** The sequential reading of a pass: when the results arrive in an order
    that is a permutation of the snapshot, the report holds one result per
    registered name.  That the goroutines, the wait group and the channel
    deliver every result exactly once is shown for the machine of
    [ForkJoin] further below. *)
Theorem CheckHealth_one_result_per_name sched m ctx s :
  fair sched →
  let checks := hr_Checks (eval (CheckHealth sched m ctx) s) in
  length checks = size (checkers m)
  ∧ NoDup (cr_Name <$> checks)
  ∧ ∀ n, n ∈ cr_Name <$> checks ↔ is_Some (checkers m !! n).
Proof.
  intros Hfair checks. subst checks.
  rewrite CheckHealth_checks.
  assert (Hn : cr_Name <$> results_of ctx (sched (map_to_list (checkers m))) s
               ≡ₚ (map_to_list (checkers m)).*1).
  { rewrite results_of_names. by rewrite (Hfair _). }
  repeat split.
  - rewrite <- (length_fmap cr_Name), Hn, length_fmap. apply length_map_to_list.
  - rewrite Hn. apply NoDup_fst_map_to_list.
  - rewrite Hn. intros Hin. apply list_elem_of_fmap in Hin as ([n' c] & -> & Hin).
    apply elem_of_map_to_list in Hin. by eexists.
  - rewrite Hn. intros [c Hc]. apply list_elem_of_fmap.
    exists (n, c). split; [done|]. by apply elem_of_map_to_list.
Qed.

Ltac run_check :=
  unfold eval, bind, Now, Since, call, Error, emit, ret; simpl;
  repeat (match goal with
          | |- context [match ?x with _ => _ end] => destruct x; simpl
          | |- context [if ?x then _ else _] => destruct x; simpl
          end);
  try reflexivity.

Lemma DatabaseChecker_Name (d : DatabaseChecker Env) ctx s :
  cr_Name (eval (Check d ctx) s) = "".
Proof. unfold Check, DatabaseChecker_Checker, DatabaseChecker_Check. run_check. Qed.

Lemma RedisChecker_Name (d : RedisChecker Env) ctx s :
  cr_Name (eval (Check d ctx) s) = "".
Proof. unfold Check, RedisChecker_Checker, RedisChecker_Check. run_check. Qed.

Lemma MoshiChecker_Name `{HTTPClient Env} (d : MoshiChecker) ctx s :
  cr_Name (eval (Check d ctx) s) = "".
Proof. unfold Check, MoshiChecker_Checker, MoshiChecker_Check. run_check. Qed.

Lemma CustomChecker_Name (d : CustomChecker Env) ctx s :
  cr_Name (eval (Check d ctx) s) = "".
Proof. unfold Check, CustomChecker_Checker, CustomChecker_Check. run_check. Qed.

Lemma CheckHealth_provenance sched m ctx s :
  fair sched →
  Forall2 (fun r nc => cr_Name r = nc.1 ∧ checkers m !! nc.1 = Some nc.2
                       ∧ produced_by ctx r nc)
    (hr_Checks (eval (CheckHealth sched m ctx) s))
    (sched (map_to_list (checkers m))).
Proof.
  intros Hfair. rewrite CheckHealth_checks.
  assert (Hin : Forall (fun nc => checkers m !! nc.1 = Some nc.2)
                  (sched (map_to_list (checkers m)))).
  { apply Forall_forall. intros [n c] Hnc. rewrite (Hfair _) in Hnc.
    by apply elem_of_map_to_list in Hnc. }
  revert Hin. generalize (sched (map_to_list (checkers m))). intros l Hl.
  pose proof (results_of_produced ctx l s) as Hp.
  revert Hl. induction Hp as [|r nc rs l' [Hn Hprod] _ IH]; intros Hl; constructor.
  - inversion Hl; subst. auto.
  - apply IH. by inversion Hl.
Qed.

(** C10: in the report of a pass every result bears the key under which
    its checker is registered, replacing whatever name the checker itself
    returned; the four built-in variants return the empty name; and one
    checker registered under two distinct names yields a result under each
    of the two names. *)
Theorem CheckHealth_names_are_registry_keys `{HTTPClient Env}
    sched m ctx s (c : AnyChecker Env) (n1 n2 : string) :
  fair sched → n1 ≠ n2 →
  Forall2 (fun r nc => cr_Name r = nc.1 ∧ checkers m !! nc.1 = Some nc.2
                       ∧ produced_by ctx r nc)
    (hr_Checks (eval (CheckHealth sched m ctx) s))
    (sched (map_to_list (checkers m)))
  ∧ (∀ ctx' s' (d : DatabaseChecker Env), cr_Name (eval (Check d ctx') s') = "")
  ∧ (∀ ctx' s' (d : RedisChecker Env), cr_Name (eval (Check d ctx') s') = "")
  ∧ (∀ ctx' s' (d : MoshiChecker), cr_Name (eval (Check d ctx') s') = "")
  ∧ (∀ ctx' s' (d : CustomChecker Env), cr_Name (eval (Check d ctx') s') = "")
  ∧ ∀ n, n = n1 ∨ n = n2 →
      ∃ r, r ∈ hr_Checks (eval (CheckHealth sched (AddChecker (AddChecker m n1 c) n2 c) ctx) s)
           ∧ cr_Name r = n ∧ produced_by ctx r (n, c).
Proof.
  intros Hfair Hne.
  split; [by apply CheckHealth_provenance|].
  split; [intros; apply DatabaseChecker_Name|].
  split; [intros; apply RedisChecker_Name|].
  split; [intros; apply MoshiChecker_Name|].
  split; [intros; apply CustomChecker_Name|].
  intros n Hn.
  set (m2 := AddChecker (AddChecker m n1 c) n2 c).
  assert (Hlk : checkers m2 !! n = Some c).
  { simpl. destruct Hn as [-> | ->].
    - rewrite lookup_insert_ne by done. apply lookup_insert_eq.
    - apply lookup_insert_eq. }
  assert (Hin : (n, c) ∈ sched (map_to_list (checkers m2))).
  { rewrite (Hfair _). by apply elem_of_map_to_list. }
  apply list_elem_of_lookup in Hin as [i Hi].
  destruct (Forall2_lookup_r _ _ _ _ _ (CheckHealth_provenance sched m2 ctx s Hfair) Hi)
    as (r & Hr & Hname & _ & Hprod).
  exists r. split; [|done]. apply list_elem_of_lookup. by exists i.
Qed.

(** *** The handlers *)

(** C6: whatever the registry holds and whatever the request, the liveness
    handler answers 200 with body "alive"; it neither calls a checker nor
    logs nor reads the clock (the state is returned as it was, whereas every
    pass of [CheckHealth] logs), so the answer is the same for every
    registry. *)
Theorem LivenessHandler_always_alive m (r : Request) s :
  let w := eval (LivenessHandler m NewRecorder r) s in
  status_of w = Some StatusOK
  ∧ Body w = "alive"
  ∧ exec (LivenessHandler m NewRecorder r) s = s
  ∧ ∀ m' r' s', eval (LivenessHandler m' NewRecorder r') s' = w.
Proof. repeat split. Qed.

(** C7: the readiness handler runs one pass of [CheckHealth] under a
    deadline of ten seconds and answers 200 with body "ready" exactly when
    the aggregate status is Healthy, and 503 with body "not ready" exactly
    when it is not; the body is one of the two tokens, never the report. *)
Theorem ReadinessHandler_ready_iff_healthy sched m (r : Request) s :
  let health := eval (CheckHealth sched m (readiness_ctx r s)) s in
  let w := eval (ReadinessHandler sched m NewRecorder r) s in
  exec (ReadinessHandler sched m NewRecorder r) s
    = exec (CheckHealth sched m (readiness_ctx r s)) s
  ∧ (hr_Status health = StatusHealthy
       ↔ status_of w = Some StatusOK ∧ Body w = "ready")
  ∧ (hr_Status health ≠ StatusHealthy
       ↔ status_of w = Some StatusServiceUnavailable ∧ Body w = "not ready")
  ∧ (Body w = "ready" ∨ Body w = "not ready").
Proof.
  cbv beta iota zeta delta [ReadinessHandler bind Now eval exec readiness_ctx].
  destruct (CheckHealth sched m _ s) as [health s1]. cbn [fst snd].
  destruct (String.eqb_spec (hr_Status health) StatusHealthy) as [Heq|Hneq];
    cbv beta iota delta [ret]; cbn [fst snd].
  - split; [done|]. split; [done|]. split; [|by left].
    split; [done | intros [Hs _]; discriminate Hs].
  - split; [done|]. split; [|split; [done | by right]].
    split; [done | intros [Hs _]; discriminate Hs].
Qed.

(** X23.  The diagnostic handler: the status line is decided by the aggregate
    status before the report is encoded, so it is 200 or 503 also when
    encoding fails; the body is the encoded report, or the text of
    [http.Error] when encoding failed. *)
Lemma HTTPHandler_spec (json_Marshal : HealthResponse → Result string)
    sched m (r : Request) s :
  let health := eval (CheckHealth sched m (diagnostic_ctx r s)) s in
  let w := eval (HTTPHandler json_Marshal sched m NewRecorder r) s in
  status_of w = Some (if String.eqb (hr_Status health) StatusHealthy
                      then StatusOK else StatusServiceUnavailable)
  ∧ (snd <$> Sent w) = Some {[ "Content-Type" := "application/json" ]}
  ∧ Body w = match json_Marshal health with
             | Ok text => text +:+ newline
             | Err _ => "Internal Server Error" +:+ newline
             end.
Proof.
  cbv beta iota zeta delta [HTTPHandler bind Now eval exec diagnostic_ctx Encode].
  destruct (CheckHealth sched m _ s) as [health s1]. cbn [fst snd].
  destruct (json_Marshal health) as [text|e];
    destruct (String.eqb (hr_Status health) StatusHealthy); repeat split.
Qed.

(** C9: the outcomes of the probe of [MoshiChecker].  A request that cannot
    be built and a transport error yield Unhealthy with a message that
    names the fault; a response yields Healthy exactly when its status code
    lies in [200, 300) and Unhealthy otherwise, and its status code and
    content type are recorded in the metadata.  [Check] returns a result in
    every case, with a non-empty message. *)
Theorem MoshiChecker_Check_outcomes `{HTTPClient Env} (c : MoshiChecker) ctx s :
  let r := eval (MoshiChecker_Check c ctx) s in
  match NewRequestWithContext ctx "GET" ("http://" +:+ serviceURL c +:+ "/health") with
  | Err e =>
      cr_Status r = StatusUnhealthy
      ∧ cr_Message r = "Failed to create request: " +:+ e
  | Ok req =>
      match (client_Do (timeout c) req (world s)).1 with
      | Err e =>
          cr_Status r = StatusUnhealthy
          ∧ cr_Message r = "Moshi service unreachable: " +:+ e
      | Ok resp =>
          (cr_Status r = StatusHealthy ↔ 200 <= StatusCode resp < 300)
          ∧ (cr_Status r = StatusUnhealthy ↔ ¬ (200 <= StatusCode resp < 300))
          ∧ (cr_Status r = StatusUnhealthy →
               cr_Message r = "Moshi service returned status " +:+ fmt_d (StatusCode resp))
          ∧ cr_Metadata r !! "status_code" = Some (fmt_d (StatusCode resp))
          ∧ cr_Metadata r !! "content_type" = Some (ContentType resp)
      end
  end
  ∧ cr_Message r ≠ ""
  ∧ (cr_Status r = StatusHealthy ∨ cr_Status r = StatusUnhealthy).
Proof.
  cbv beta iota zeta delta [MoshiChecker_Check eval bind Now Since call].
  destruct (NewRequestWithContext ctx "GET" _) as [req|e]; cbn [fst snd].
  - destruct (client_Do (timeout c) req (world s)) as [[resp|e] w1]; cbn [fst snd].
    + destruct (Z.leb_spec 200 (StatusCode resp)) as [Hlo|Hlo];
        destruct (Z.ltb_spec (StatusCode resp) 300) as [Hhi|Hhi]; simpl;
        (split; [|split; [discriminate | auto]]);
        (split; [split; [try discriminate; lia | try lia; done]|]);
        (split; [split; [try discriminate; lia | try lia; done]|]);
        (split; [try discriminate; done|]); split; reflexivity.
    + split; [|split; [discriminate | auto]]. split; reflexivity.
  - split; [|split; [discriminate | auto]]. split; reflexivity.
Qed.
End HealthProperties.

(** ** The properties on the sample inputs *)

Section HealthExamples.
Import Health HealthSamples.

Lemma fair_fifo : fair fifo.
Proof. intros l. reflexivity. Qed.

Lemma fair_lifo : fair lifo.
Proof. intros l. apply reverse_Permutation. Qed.

(** With no checker registered the three endpoints answer 200. *)
Example empty_registry_is_healthy :
  hr_Status (eval (CheckHealth fifo mEmpty Background) hs0) = StatusHealthy
  ∧ status_of (eval (HTTPHandler sample_Marshal fifo mEmpty NewRecorder req0) hs0) = Some 200
  ∧ status_of (eval (ReadinessHandler fifo mEmpty NewRecorder req0) hs0) = Some 200
  ∧ status_of (eval (LivenessHandler mEmpty NewRecorder req0) hs0) = Some 200.
Proof. vm_compute. repeat split. Qed.

(** A registry whose only check reports Unknown is Healthy. *)
Example unknown_only_is_healthy :
  cr_Status <$> hr_Checks (eval (CheckHealth fifo mUnknown Background) hs0) = [StatusUnknown]
  ∧ hr_Status (eval (CheckHealth fifo mUnknown Background) hs0) = StatusHealthy.
Proof. vm_compute. split; reflexivity. Qed.

(** One passing and one failing custom checker, under both schedules. *)
Example mixed_registry_report :
  hr_Status (eval (CheckHealth lifo mMixed Background) hs0) = StatusUnhealthy
  ∧ cr_Name <$> hr_Checks (eval (CheckHealth fifo mMixed Background) hs0) = ["api"; "db"]
  ∧ cr_Name <$> hr_Checks (eval (CheckHealth lifo mMixed Background) hs0) = ["db"; "api"]
  ∧ cr_Message <$> hr_Checks (eval (CheckHealth fifo mMixed Background) hs0) = ["ok"; "down"]
  ∧ status_of (eval (HTTPHandler sample_Marshal fifo mMixed NewRecorder req0) hs0) = Some 503.
Proof. vm_compute. repeat split. Qed.

(** The liveness answer with a failing checker registered. *)
Example liveness_ignores_failing_checkers :
  eval (LivenessHandler mMixed NewRecorder req0) hs0
    = {| Header := ∅; Sent := Some (200, ∅); Body := "alive" |}
  ∧ exec (LivenessHandler mMixed NewRecorder req0) hs0 = hs0.
Proof. split; reflexivity. Qed.

(** Both branches of the readiness handler. *)
Example readiness_both_branches :
  eval (ReadinessHandler fifo mOk NewRecorder req0) hs0
    = {| Header := ∅; Sent := Some (200, ∅); Body := "ready" |}
  ∧ eval (ReadinessHandler fifo mMixed NewRecorder req0) hs0
    = {| Header := ∅; Sent := Some (503, ∅); Body := "not ready" |}.
Proof. vm_compute. split; reflexivity. Qed.

(** The three outcomes of the probe on the sample network. *)
Example moshi_probe_outcomes :
  let stt := eval (MoshiChecker_Check (NewMoshiChecker "stt:8080" (5 * Second)) Background) hs0 in
  let tts := eval (MoshiChecker_Check (NewMoshiChecker "tts:8080" (5 * Second)) Background) hs0 in
  let off := eval (MoshiChecker_Check (NewMoshiChecker "off:8080" (5 * Second)) Background) hs0 in
  (cr_Status stt = StatusHealthy ∧ cr_Metadata stt !! "status_code" = Some "200"
     ∧ cr_Metadata stt !! "content_type" = Some "application/json" ∧ cr_Duration stt = 5)
  ∧ (cr_Status tts = StatusUnhealthy ∧ cr_Metadata tts !! "status_code" = Some "503"
     ∧ cr_Message tts = "Moshi service returned status 503")
  ∧ (cr_Status off = StatusUnhealthy ∧ cr_Metadata off = ∅
     ∧ cr_Message off = "Moshi service unreachable: dial tcp: connection refused").
Proof. vm_compute. repeat split. Qed.

(** The sample registry with the results arriving in the order opposite
    to the snapshot. *)
Lemma CheckHealth_one_result_per_name_witness :
  fair lifo
  ∧ let checks := hr_Checks (eval (CheckHealth lifo mMixed Background) hs0) in
    length checks = size (checkers mMixed)
    ∧ NoDup (cr_Name <$> checks)
    ∧ ∀ n, n ∈ cr_Name <$> checks ↔ is_Some (checkers mMixed !! n).
Proof.
  split; [exact fair_lifo|].
  apply (CheckHealth_one_result_per_name lifo mMixed Background hs0).
  exact fair_lifo.
Defined.

(** C10 on the sample registry: one failing checker registered as
    "primary" and as "replica". *)
Lemma CheckHealth_names_are_registry_keys_witness :
  fair lifo ∧ "primary" ≠ "replica"
  ∧ ∀ n, n = "primary" ∨ n = "replica" →
      ∃ r, r ∈ hr_Checks (eval (CheckHealth lifo
                 (AddChecker (AddChecker mOk "primary" custom_down) "replica" custom_down)
                 Background) hs0)
           ∧ cr_Name r = n ∧ produced_by Background r (n, custom_down).
Proof.
  split; [exact fair_lifo|].
  split; [discriminate|].
  apply (CheckHealth_names_are_registry_keys (H := sample_client)
           lifo mOk Background hs0 custom_down "primary" "replica").
  - exact fair_lifo.
  - discriminate.
Defined.

(** C8 at a report that cannot be encoded: the client receives the status
    decided before encoding, 200 for the healthy registry and 503 for the
    unhealthy one, never 500; only the body carries the text of the
    internal error. *)
Theorem HTTPHandler_encode_failure_is_not_500 :
  let healthy := eval (HTTPHandler sample_Marshal fifo mFarFuture NewRecorder req0) hs0 in
  let failing := eval (HTTPHandler sample_Marshal fifo mFarFutureDown NewRecorder req0) hs0 in
  (∃ e, sample_Marshal (eval (CheckHealth fifo mFarFuture (diagnostic_ctx req0 hs0)) hs0) = Err e)
  ∧ (∃ e, sample_Marshal (eval (CheckHealth fifo mFarFutureDown (diagnostic_ctx req0 hs0)) hs0) = Err e)
  ∧ status_of healthy = Some StatusOK
  ∧ status_of failing = Some StatusServiceUnavailable
  ∧ status_of healthy ≠ Some StatusInternalServerError
  ∧ status_of failing ≠ Some StatusInternalServerError
  ∧ Body healthy = "Internal Server Error" +:+ newline
  ∧ Body failing = "Internal Server Error" +:+ newline.
Proof.
  vm_compute.
  split; [eexists; reflexivity|]. split; [eexists; reflexivity|].
  split; [reflexivity|]. split; [reflexivity|].
  split; [discriminate|]. split; [discriminate|]. split; reflexivity.
Qed.
End HealthExamples.

(** ** Further properties of package shutdown *)

Section MoreShutdown.
Context {Env : Type}.
Implicit Types (m : Shutdown.Manager Env) (s : State Env) (w : World Env).

Lemma count_seq_events ctx (l : list (Shutdown.Hook Env)) w :
  length (List.filter is_error_line (seq_events ctx l w))
  = length (List.filter is_failed_call (seq_events ctx l w)).
Proof.
  revert w. induction l as [|h l IH]; intros w; [reflexivity|].
  cbn [seq_events]. rewrite !List.filter_app, !length_app, IH.
  f_equal. unfold hook_events. by destruct (h ctx w).1.
Qed.

(** X1: a hook added by [AddHook] goes to the end of the sequence, keeps
    the timeout, and is the first to run at the next shutdown, in the world
    in which the shutdown starts; the hooks registered before it then run
    as they would have, from the world the new hook left. *)
Theorem AddHook_hook_runs_first m (h : Shutdown.Hook Env) s :
  let m' := Shutdown.AddHook m h in
  let ctx := shutdown_ctx m s in
  Shutdown.hooks m' = Shutdown.hooks m ++ [h]
  ∧ Shutdown.timeout m' = Shutdown.timeout m
  ∧ world (exec (Shutdown.Shutdown m') s)
    = seq_world ctx (rev (Shutdown.hooks m)) (h ctx (world s)).2
  ∧ hook_calls (added (Shutdown.Shutdown m') s)
    = length (Shutdown.hooks m) :: rev (seq 0 (length (Shutdown.hooks m))).
Proof.
  intros m' ctx. split; [reflexivity|]. split; [reflexivity|]. split.
  - unfold exec. rewrite Shutdown_spec. cbn [snd world].
    subst m'. cbn [Shutdown.hooks Shutdown.AddHook]. rewrite rev_unit. reflexivity.
  - rewrite added_Shutdown, !hook_calls_app, hook_calls_seq_events.
    subst m'. cbn [Shutdown.hooks Shutdown.AddHook].
    rewrite length_rev, length_app. cbn [length].
    rewrite Nat.add_1_r, seq_S, rev_unit. cbn [hook_calls omap hook_index log_started log_completed].
    simpl. by rewrite app_nil_r.
Qed.

(** X2: shutting down a manager without hooks leaves the world as it was
    and logs the start and the completion, nothing else. *)
Theorem Shutdown_without_hooks (t : Duration) s :
  let m := Shutdown.NewManager (Env:=Env) t in
  world (exec (Shutdown.Shutdown m) s) = world s
  ∧ added (Shutdown.Shutdown m) s = [log_started m; log_completed].
Proof.
  intros m. split.
  - unfold exec. rewrite Shutdown_spec. reflexivity.
  - rewrite added_Shutdown. reflexivity.
Qed.

(** X3: a shutdown writes exactly one error line per hook call that
    returned an error; when no hook fails the log has no error line. *)
Theorem Shutdown_one_error_line_per_failure m s :
  length (List.filter is_error_line (added (Shutdown.Shutdown m) s))
  = length (List.filter is_failed_call (added (Shutdown.Shutdown m) s)).
Proof.
  rewrite added_Shutdown, !List.filter_app, !length_app, count_seq_events.
  reflexivity.
Qed.

(** X4: [WaitForShutdown] does what [Listen] does and then exits with
    code 0, whatever the hooks returned; [Listen] is [Shutdown] after the
    line that reports the signal. *)
Theorem WaitForShutdown_exits_zero m (sig : string) s :
  let st := exec (Shutdown.WaitForShutdown m sig) s in
  let signal_line :=
    EvLog {| level := LInfo; msg := "Received shutdown signal";
             fields := [FString "signal" sig] |} in
  trace st = trace (exec (Shutdown.Listen m sig) s) ++ [EvExit 0]
  ∧ last (trace st) = Some (EvExit 0)
  ∧ world st = world (exec (Shutdown.Shutdown m) s)
  ∧ added (Shutdown.Listen m sig) s = signal_line :: added (Shutdown.Shutdown m) s.
Proof.
  intros st signal_line. subst st.
  unfold exec, Shutdown.WaitForShutdown, Shutdown.Listen, added, exec, bind, Info, emit.
  rewrite !Shutdown_spec. cbn [fst snd world trace].
  split; [reflexivity|]. split; [apply last_snoc|]. split; [reflexivity|].
  rewrite <- !app_assoc. rewrite !drop_app_length. reflexivity.
Qed.
End MoreShutdown.

(** ** Further properties of package health *)

Section MoreHealth.
Import Health.
Context {Env : Type}.
Implicit Types (m : Manager Env) (s : State Env) (sched : Schedule Env).

Lemma CheckHealth_names_perm sched m ctx s :
  fair sched →
  cr_Name <$> hr_Checks (eval (CheckHealth sched m ctx) s)
  ≡ₚ (map_to_list (checkers m)).*1.
Proof.
  intros Hfair. rewrite CheckHealth_checks, results_of_names.
  by rewrite (Hfair _).
Qed.

Lemma CheckHealth_name_registered sched m ctx s n :
  fair sched →
  n ∈ cr_Name <$> hr_Checks (eval (CheckHealth sched m ctx) s)
  ↔ is_Some (checkers m !! n).
Proof.
  intros Hfair. rewrite (CheckHealth_names_perm sched m ctx s Hfair). split.
  - intros Hin. apply list_elem_of_fmap in Hin as ([n' c] & -> & Hin).
    apply elem_of_map_to_list in Hin. by eexists.
  - intros [c Hc]. apply list_elem_of_fmap.
    exists (n, c). split; [done|]. by apply elem_of_map_to_list.
Qed.

(** X5: the last registration under a name wins.  After [AddChecker m n c]
    a pass reports the name [n], every result under [n] comes from [c] and
    from no checker registered under [n] before, the number of results grows
    by one exactly when [n] was not registered, and a registration that is
    overwritten leaves no trace in the registry. *)
Theorem AddChecker_last_registration_wins sched m ctx s (n : string)
    (c : AnyChecker Env) :
  fair sched →
  let checks := hr_Checks (eval (CheckHealth sched (AddChecker m n c) ctx) s) in
  (∃ r, r ∈ checks ∧ cr_Name r = n)
  ∧ (∀ r, r ∈ checks → cr_Name r = n → produced_by ctx r (n, c))
  ∧ length checks = match checkers m !! n with
                    | Some _ => size (checkers m)
                    | None => S (size (checkers m))
                    end
  ∧ ∀ c0, AddChecker (AddChecker m n c0) n c = AddChecker m n c.
Proof.
  intros Hfair checks. subst checks.
  set (m' := AddChecker m n c).
  assert (Hlk : checkers m' !! n = Some c) by apply lookup_insert_eq.
  split; [|split; [|split]].
  - assert (Hin : n ∈ cr_Name <$> hr_Checks (eval (CheckHealth sched m' ctx) s)).
    { apply CheckHealth_name_registered; [done | by eexists]. }
    apply list_elem_of_fmap in Hin as (r & -> & Hr). by exists r.
  - intros r Hr Hname. apply list_elem_of_lookup in Hr as [i Hi].
    destruct (Forall2_lookup_l _ _ _ _ _ (CheckHealth_provenance sched m' ctx s Hfair) Hi)
      as ([n' c'] & _ & Hn' & Hreg & Hprod). simpl in *.
    rewrite Hname in Hn'. subst n'.
    rewrite Hlk in Hreg. by injection Hreg as <-.
  - rewrite <- (length_fmap cr_Name), (CheckHealth_names_perm sched m' ctx s Hfair).
    rewrite length_fmap, length_map_to_list. subst m'. simpl.
    rewrite map_size_insert. by destruct (checkers m !! n).
  - intros c0. unfold AddChecker. simpl. by rewrite insert_insert_eq.
Qed.

(** X6: after [RemoveChecker m n] a pass reports no result under [n], and
    it reports every other name exactly when the name is registered in
    [m]. *)
Theorem RemoveChecker_drops_only_that_name sched m ctx s (n : string) :
  fair sched →
  let checks := hr_Checks (eval (CheckHealth sched (RemoveChecker m n) ctx) s) in
  (n ∉ cr_Name <$> checks)
  ∧ ∀ n', n' ≠ n → (n' ∈ cr_Name <$> checks ↔ is_Some (checkers m !! n')).
Proof.
  intros Hfair checks. subst checks. split.
  - rewrite (CheckHealth_name_registered _ _ _ _ _ Hfair). simpl.
    rewrite lookup_delete_eq. by intros [? ?].
  - intros n' Hne. rewrite (CheckHealth_name_registered _ _ _ _ _ Hfair). simpl.
    by rewrite lookup_delete_ne.
Qed.

(** X7: removing a name that is not registered changes nothing, and
    removing a name right after registering it undoes the registration. *)
Theorem RemoveChecker_absent_is_noop m (n : string) (c : AnyChecker Env) :
  checkers m !! n = None →
  RemoveChecker m n = m ∧ RemoveChecker (AddChecker m n c) n = m.
Proof.
  intros Hn. destruct m as [nm ver t cs]. unfold RemoveChecker, AddChecker. simpl in *.
  split; f_equal.
  - by apply delete_id.
  - rewrite delete_insert_eq. by apply delete_id.
Qed.

(** X8: a manager made by [NewManager] has no checkers and the instant of
    its creation as start time, and making it changes nothing; a pass over
    it, whenever it is run, reports Healthy with no checks, under the given
    name and version. *)
Theorem NewManager_is_empty_and_healthy sched (nm ver : string) ctx s s' :
  fair sched →
  let m := eval (NewManager nm ver) s in
  let r := eval (CheckHealth sched m ctx) s' in
  exec (NewManager nm ver) s = s
  ∧ checkers m = ∅ ∧ startTime m = now (world s)
  ∧ hr_Checks r = [] ∧ hr_Status r = StatusHealthy
  ∧ hr_Service r = nm ∧ hr_Version r = ver.
Proof.
  intros Hfair m r. subst r m.
  assert (Hnil : sched (map_to_list (∅ : gmap string (AnyChecker Env))) = []).
  { apply Permutation_nil_r. rewrite (Hfair _). by rewrite map_to_list_empty. }
  unfold NewManager, CheckHealth, eval, exec, bind, Now, Since, Info, emit, ret.
  cbn [fst snd checkers]. rewrite Hnil. cbn.
  repeat split.
Qed.

(** X9: the summary line that ends a pass agrees with the report that is
    returned: it is an info line that carries the status of the report and
    the number of its checks; the report carries the name and the version
    of the manager. *)
Theorem CheckHealth_summary_matches_report sched m ctx s :
  let r := eval (CheckHealth sched m ctx) s in
  let st := exec (CheckHealth sched m ctx) s in
  (∃ duration,
     last (trace st) = Some (EvLog {| level := LInfo; msg := "Health check completed";
       fields := [FString "overall_status" (hr_Status r);
                  FDuration "duration" duration;
                  FInt "checks_count" (Z.of_nat (length (hr_Checks r)))] |}))
  ∧ hr_Service r = serviceName m ∧ hr_Version r = version m.
Proof.
  unfold CheckHealth, eval, exec, bind, Now, Since, Info, emit, ret. simpl.
  destruct (collect ctx _ [] s) as [checks s1]. simpl.
  rewrite last_snoc. repeat split. by eexists.
Qed.

(** X10: the overall status does not depend on the order of the checks. *)
Theorem overall_status_order_irrelevant (checks checks' : list CheckResult) :
  checks ≡ₚ checks' →
  overall_loop StatusHealthy checks = overall_loop StatusHealthy checks'.
Proof.
  intros Hp.
  pose proof (overall_loop_unhealthy checks) as H1.
  pose proof (overall_loop_unhealthy checks') as H2.
  assert (Hex : Exists is_unhealthy checks ↔ Exists is_unhealthy checks').
  { by rewrite Hp. }
  destruct (overall_loop_two_valued checks) as [Ha|Ha];
    destruct (overall_loop_two_valued checks') as [Hb|Hb]; rewrite ?Ha, ?Hb; try done.
  - assert (Hc : overall_loop StatusHealthy checks = StatusUnhealthy)
      by (apply H1, Hex, H2, Hb).
    rewrite Ha in Hc. discriminate.
  - assert (Hc : overall_loop StatusHealthy checks' = StatusUnhealthy)
      by (apply H2, Hex, H1, Ha).
    rewrite Hb in Hc. discriminate.
Qed.
End MoreHealth.

(** ** The checker variants *)

Section MoreCheckers.
Import Health.
Context {Env : Type}.
Implicit Types (s : State Env).

(** X11: [DatabaseChecker.Check].  The duration is the time the ping took.
    When the ping fails the result is Unhealthy with the error in the
    message and no metadata, the failure is logged, and the pool statistics
    are not read; when it succeeds the result is Healthy, nothing is logged,
    and the metadata holds exactly the three pool counters. *)
Theorem DatabaseChecker_Check_outcomes (c : DatabaseChecker Env) ctx s :
  let ping := PingContext (db c) ctx (world s) in
  let r := eval (DatabaseChecker_Check c ctx) s in
  let st := exec (DatabaseChecker_Check c ctx) s in
  cr_Duration r = now ping.2 - now (world s)
  ∧ match ping.1 with
    | Some e =>
        cr_Status r = StatusUnhealthy
        ∧ cr_Message r = "Database ping failed: " +:+ e
        ∧ cr_Metadata r = ∅
        ∧ world st = ping.2
        ∧ trace st = trace s ++
            [EvLog {| level := LError; msg := "Database health check failed";
                      fields := [FError e; FDuration "duration" (cr_Duration r)] |}]
    | None =>
        let stats := Stats (db c) ping.2 in
        cr_Status r = StatusHealthy
        ∧ cr_Message r = "Database connection healthy"
        ∧ cr_Metadata r !! "open_connections" = Some (fmt_d (OpenConnections stats.1))
        ∧ cr_Metadata r !! "in_use" = Some (fmt_d (InUse stats.1))
        ∧ cr_Metadata r !! "idle" = Some (fmt_d (Idle stats.1))
        ∧ size (cr_Metadata r) = 3%nat
        ∧ world st = stats.2
        ∧ trace st = trace s
    end.
Proof.
  cbv beta iota zeta delta [DatabaseChecker_Check eval exec bind Now Since call].
  destruct (PingContext (db c) ctx (world s)) as [[e|] w1]; cbn [fst snd].
  - unfold Error, emit, ret. cbn. repeat split.
  - unfold ret. cbn [fst snd world trace].
    destruct (Stats (db c) w1) as [stats w2]. cbn. repeat split.
Qed.

(** X12: [RedisChecker.Check].  A failed ping, and a reply other than PONG,
    give Unhealthy without metadata, and INFO is not issued; the reply PONG
    gives Healthy whether INFO succeeds or not, and the metadata records
    the reply and, only when INFO succeeded, that the info is available.
    Only a failed ping is logged. *)
Theorem RedisChecker_Check_outcomes (c : RedisChecker Env) ctx s :
  let ping := redis_Ping (client c) ctx (world s) in
  let r := eval (RedisChecker_Check c ctx) s in
  let st := exec (RedisChecker_Check c ctx) s in
  cr_Duration r = now ping.2 - now (world s)
  ∧ match ping.1.2 with
    | Some e =>
        cr_Status r = StatusUnhealthy
        ∧ cr_Message r = "Redis ping failed: " +:+ e
        ∧ cr_Metadata r = ∅
        ∧ world st = ping.2
        ∧ trace st = trace s ++
            [EvLog {| level := LError; msg := "Redis health check failed";
                      fields := [FError e; FDuration "duration" (cr_Duration r)] |}]
    | None =>
        if String.eqb ping.1.1 "PONG" then
          let info := redis_Info (client c) ctx ping.2 in
          cr_Status r = StatusHealthy
          ∧ cr_Message r = "Redis connection healthy"
          ∧ cr_Metadata r !! "ping_response" = Some "PONG"
          ∧ cr_Metadata r !! "info_available"
            = match info.1.2 with None => Some "true" | Some _ => None end
          ∧ world st = info.2
          ∧ trace st = trace s
        else
          cr_Status r = StatusUnhealthy
          ∧ cr_Message r = "Redis ping returned unexpected response: " +:+ ping.1.1
          ∧ cr_Metadata r = ∅
          ∧ world st = ping.2
          ∧ trace st = trace s
    end.
Proof.
  cbv beta iota zeta delta [RedisChecker_Check eval exec bind Now Since call].
  destruct (redis_Ping (client c) ctx (world s)) as [[pong [e|]] w1]; cbn [fst snd].
  - unfold Error, emit, ret. cbn. repeat split.
  - destruct (String.eqb_spec pong "PONG") as [->|Hne]; cbn [negb fst snd].
    + unfold ret. cbn [fst snd world trace].
      destruct (redis_Info (client c) ctx w1) as [[txt [e|]] w2]; cbn; repeat split.
    + unfold ret. cbn. repeat split.
Qed.

End MoreCheckers.

(** ** Package config *)

Section ConfigProperties.
Import Config.

Lemma valid_loop_spec (x : string) (valid : list string) :
  valid_loop x valid false = true ↔ x ∈ valid.
Proof.
  induction valid as [|v valid IH]; simpl.
  - split; [discriminate | intros H; inversion H].
  - destruct (String.eqb_spec x v) as [->|Hne].
    + split; [intros _; apply list_elem_of_here | done].
    + rewrite IH. split; [apply list_elem_of_further|].
      intros H; inversion H; subst; [contradiction | assumption].
Qed.

(** X14: [validateConfig] accepts a configuration exactly when the
    application name and the four hosts are not empty, the environment is
    dev, staging or prod, and the logging level is debug, info, warn or
    error. *)
Theorem validateConfig_accepts_iff (config : Config) :
  validateConfig config = None ↔
    Name (App config) ≠ ""
    ∧ db_Host (Database config) ≠ ""
    ∧ redis_Host (Redis config) ≠ ""
    ∧ stt_Host (STT (Moshi config)) ≠ ""
    ∧ tts_Host (TTS (Moshi config)) ≠ ""
    ∧ Environment (App config) ∈ ["dev"; "staging"; "prod"]
    ∧ Level (Logging config) ∈ ["debug"; "info"; "warn"; "error"].
Proof.
  unfold validateConfig.
  destruct (String.eqb_spec (Name (App config)) "") as [H1|H1];
    [split; [discriminate | intros (? & _); contradiction]|].
  destruct (String.eqb_spec (db_Host (Database config)) "") as [H2|H2];
    [split; [discriminate | intros (_ & ? & _); contradiction]|].
  destruct (String.eqb_spec (redis_Host (Redis config)) "") as [H3|H3];
    [split; [discriminate | intros (_ & _ & ? & _); contradiction]|].
  destruct (String.eqb_spec (stt_Host (STT (Moshi config))) "") as [H4|H4];
    [split; [discriminate | intros (_ & _ & _ & ? & _); contradiction]|].
  destruct (String.eqb_spec (tts_Host (TTS (Moshi config))) "") as [H5|H5];
    [split; [discriminate | intros (_ & _ & _ & _ & ? & _); contradiction]|].
  cbv zeta.
  pose proof (valid_loop_spec (Environment (App config)) ["dev"; "staging"; "prod"]) as He.
  pose proof (valid_loop_spec (Level (Logging config)) ["debug"; "info"; "warn"; "error"]) as Hl.
  destruct (valid_loop (Environment (App config)) _ false); cbn [negb].
  - destruct (valid_loop (Level (Logging config)) _ false); cbn [negb].
    + split; [intros _|done]. repeat split; try done; [by apply He | by apply Hl].
    + split; [discriminate|]. intros (_ & _ & _ & _ & _ & _ & H).
      apply Hl in H. discriminate.
  - split; [discriminate|]. intros (_ & _ & _ & _ & _ & H & _).
    apply He in H. discriminate.
Qed.

(** X15: for a configuration that passes validation, [IsDevelopment] and
    [IsProduction] are never both true, and both are false exactly in the
    staging environment. *)
Theorem validated_environment_modes (config : Config) :
  validateConfig config = None →
  (IsDevelopment config && IsProduction config = false)
  ∧ (IsDevelopment config = false ∧ IsProduction config = false
       ↔ Environment (App config) = "staging").
Proof.
  intros Hv. apply validateConfig_accepts_iff in Hv as (_ & _ & _ & _ & _ & He & _).
  unfold IsDevelopment, IsProduction.
  repeat (apply elem_of_cons in He as [->|He]); [| | |inversion He];
    (split; [reflexivity|]); split; try done; intros [? ?]; discriminate.
Qed.

Lemma getEnvironment_cases (environ : gmap string string) :
  getEnvironment environ =
  if String.eqb (Getenv environ "PHONIC_ENV") ""
  then (if String.eqb (Getenv environ "ENV") "" then "dev" else Getenv environ "ENV")
  else Getenv environ "PHONIC_ENV".
Proof.
  unfold getEnvironment. cbv zeta.
  destruct (String.eqb (Getenv environ "PHONIC_ENV") "") eqn:E1; [|by rewrite E1].
  cbn iota. by destruct (String.eqb (Getenv environ "ENV") "") eqn:E2.
Qed.

(** X16: [getEnvironment] is the value of PHONIC_ENV when that is not
    empty, else the value of ENV when that is not empty, else dev; so it is
    never the empty string, and it is dev when neither variable is set. *)
Theorem getEnvironment_never_empty (environ : gmap string string) :
  getEnvironment environ
  = (if decide (Getenv environ "PHONIC_ENV" ≠ "") then Getenv environ "PHONIC_ENV"
     else if decide (Getenv environ "ENV" ≠ "") then Getenv environ "ENV"
     else "dev")
  ∧ getEnvironment environ ≠ ""
  ∧ getEnvironment (delete "PHONIC_ENV" (delete "ENV" environ)) = "dev".
Proof.
  split; [|split].
  - rewrite getEnvironment_cases.
    destruct (String.eqb_spec (Getenv environ "PHONIC_ENV") "") as [H1|H1].
    + rewrite decide_False by (intros H; by apply H).
      destruct (String.eqb_spec (Getenv environ "ENV") "") as [H2|H2].
      * by rewrite decide_False by (intros H; by apply H).
      * by rewrite decide_True.
    + by rewrite decide_True.
  - rewrite getEnvironment_cases.
    destruct (String.eqb_spec (Getenv environ "PHONIC_ENV") "") as [H1|H1]; [|exact H1].
    destruct (String.eqb_spec (Getenv environ "ENV") "") as [H2|H2];
      [discriminate | exact H2].
  - rewrite getEnvironment_cases. unfold Getenv.
    rewrite lookup_delete_eq. rewrite lookup_delete_ne by done.
    rewrite lookup_delete_eq. reflexivity.
Qed.

(** X17: setting PHONIC_ENV to a non-empty value decides the environment,
    whatever ENV holds. *)
Theorem getEnvironment_PHONIC_ENV_overrides (environ : gmap string string) (v : string) :
  v ≠ "" → getEnvironment (<["PHONIC_ENV" := v]> environ) = v.
Proof.
  intros Hv. rewrite getEnvironment_cases. unfold Getenv.
  rewrite lookup_insert_eq. simpl.
  by destruct (String.eqb_spec v "").
Qed.
End ConfigProperties.

(** ** Package middleware *)

Section MiddlewareProperties.
Import Middleware.
Context {Env : Type}.

Lemma string_app_assoc (a b c : string) : (a +:+ b) +:+ c = a +:+ (b +:+ c).
Proof.
  induction a as [|ch a IH]; [reflexivity|].
  change (String ch ((a +:+ b) +:+ c) = String ch (a +:+ (b +:+ c))).
  by rewrite IH.
Qed.

Lemma join_loop_spec (rest : list string) (separator result x : string) :
  join_loop (x :: rest) separator result
  = result +:+ separator +:+ String.concat separator (x :: rest).
Proof.
  revert result x. induction rest as [|y rest IH]; intros result x.
  - reflexivity.
  - change (join_loop (x :: y :: rest) separator result)
      with (join_loop (y :: rest) separator (result +:+ (separator +:+ x))).
    rewrite IH.
    change (String.concat separator (x :: y :: rest))
      with (x +:+ separator +:+ String.concat separator (y :: rest)).
    by rewrite !string_app_assoc.
Qed.

(** X18: [joinStrings] is [strings.Join]: the elements in order, with the
    separator between neighbours and nowhere else. *)
Theorem joinStrings_is_concat (slice : list string) (separator : string) :
  joinStrings slice separator = String.concat separator slice.
Proof.
  destruct slice as [|x [|y rest]]; [reflexivity | reflexivity |].
  unfold joinStrings. rewrite join_loop_spec. reflexivity.
Qed.

Lemma allowed_loop_spec (origin : string) (allowedOrigins : list string) :
  allowed_loop origin allowedOrigins false = true
  ↔ "*" ∈ allowedOrigins ∨ origin ∈ allowedOrigins.
Proof.
  induction allowedOrigins as [|a l IH]; simpl.
  - split; [discriminate | intros [H|H]; inversion H].
  - destruct (String.eqb_spec a "*") as [->|Hs]; simpl.
    + split; [intros _; left; apply list_elem_of_here | done].
    + destruct (String.eqb_spec a origin) as [->|Ho].
      * split; [intros _; right; apply list_elem_of_here | done].
      * rewrite IH. split.
        -- intros [H|H]; [left | right]; by apply list_elem_of_further.
        -- intros [H|H]; inversion H; subst; try congruence; tauto.
Qed.

(** X19: [CORS] hands the request on with the response headers set as
    follows and with nothing sent yet that was not sent before: the origin
    of the request is echoed exactly when the list of allowed origins holds
    it or the wildcard, the allowed methods and headers are joined with
    commas, credentials are always allowed, and no other header is touched.
    A preflight request (method OPTIONS) is answered 200 with these headers
    without the next handler being run. *)
Theorem CORS_headers_and_preflight (allowedOrigins allowedMethods allowedHeaders : list string)
    (next : Handler Env) (w : Health.ResponseWriter) (r : Request) (s : State Env) :
  let origin := Header_Get r "Origin" in
  ∃ w',
    Health.Sent w' = Health.Sent w ∧ Health.Body w' = Health.Body w
    ∧ Health.Header w' !! "Access-Control-Allow-Origin"
      = (if decide ("*" ∈ allowedOrigins ∨ origin ∈ allowedOrigins)
         then Some origin
         else Health.Header w !! "Access-Control-Allow-Origin")
    ∧ Health.Header w' !! "Access-Control-Allow-Methods"
      = Some (String.concat ", " allowedMethods)
    ∧ Health.Header w' !! "Access-Control-Allow-Headers"
      = Some (String.concat ", " allowedHeaders)
    ∧ Health.Header w' !! "Access-Control-Allow-Credentials" = Some "true"
    ∧ (∀ k, k ∉ cors_headers → Health.Header w' !! k = Health.Header w !! k)
    ∧ CORS allowedOrigins allowedMethods allowedHeaders next w r s
      = if String.eqb (Method r) "OPTIONS"
        then ((Health.WriteHeader Health.StatusOK w', None), s)
        else next w' r s.
Proof.
  intros origin.
  pose proof (allowed_loop_spec origin allowedOrigins) as Ha.
  set (w0 := if allowed_loop origin allowedOrigins false
             then Health.Header_Set "Access-Control-Allow-Origin" origin w else w).
  assert (H0 : Health.Sent w0 = Health.Sent w ∧ Health.Body w0 = Health.Body w
               ∧ (∀ k, k ≠ "Access-Control-Allow-Origin" →
                       Health.Header w0 !! k = Health.Header w !! k)
               ∧ Health.Header w0 !! "Access-Control-Allow-Origin"
                 = (if decide ("*" ∈ allowedOrigins ∨ origin ∈ allowedOrigins)
                    then Some origin
                    else Health.Header w !! "Access-Control-Allow-Origin")).
  { subst w0. destruct (allowed_loop origin allowedOrigins false).
    - repeat split; cbn [Health.Header Health.Header_Set].
      + intros k Hk. by rewrite lookup_insert_ne.
      + rewrite lookup_insert_eq. rewrite decide_True; [done | by apply Ha].
    - repeat split. rewrite decide_False; [done|].
      intros H. apply Ha in H. discriminate. }
  destruct H0 as (HS & HB & Hother & Horigin).
  exists (Health.Header_Set "Access-Control-Allow-Credentials" "true"
            (Health.Header_Set "Access-Control-Allow-Headers" (String.concat ", " allowedHeaders)
               (Health.Header_Set "Access-Control-Allow-Methods"
                  (String.concat ", " allowedMethods) w0))).
  cbn [Health.Header Health.Sent Health.Body Health.Header_Set].
  split; [exact HS|]. split; [exact HB|].
  split; [by rewrite !lookup_insert_ne|].
  split; [rewrite !lookup_insert_ne by done; apply lookup_insert_eq|].
  split; [rewrite lookup_insert_ne by done; apply lookup_insert_eq|].
  split; [apply lookup_insert_eq|].
  split.
  - intros k Hk.
    assert (Hne : k ≠ "Access-Control-Allow-Origin" ∧ k ≠ "Access-Control-Allow-Methods"
                  ∧ k ≠ "Access-Control-Allow-Headers"
                  ∧ k ≠ "Access-Control-Allow-Credentials").
    { unfold cors_headers in Hk. repeat split; intros ->; apply Hk;
        repeat first [apply list_elem_of_here | apply list_elem_of_further]. }
    destruct Hne as (H1 & H2 & H3 & H4).
    rewrite !lookup_insert_ne by done. by apply Hother.
  - unfold CORS. fold origin. fold w0. rewrite !joinStrings_is_concat.
    by destruct (String.eqb (Method r) "OPTIONS").
Qed.

(** X20: [Recovery] hands on unchanged what a handler does that returns
    normally.  When the handler panics, the panic is logged and does not
    spread, and the text of the internal error is appended to the body; the
    client sees status 500 only if the handler had sent no status before it
    panicked, otherwise the status already sent stands. *)
Theorem Recovery_outcomes (next : Handler Env) (w : Health.ResponseWriter)
    (r : Request) (s : State Env) :
  let out := next w r s in
  let res := Recovery next w r s in
  match out.1.2 with
  | None => res = out
  | Some err =>
      res.1.2 = None
      ∧ Health.Body res.1.1 = Health.Body out.1.1 +:+ "Internal Server Error" +:+ newline
      ∧ Health.status_of res.1.1
        = match Health.status_of out.1.1 with
          | Some code => Some code
          | None => Some Health.StatusInternalServerError
          end
      ∧ world res.2 = world out.2
      ∧ trace res.2 = trace out.2 ++
          [EvLog {| level := LError; msg := "HTTP handler panic";
                    fields := WithContext (req_Values r)
                                ++ [FString "panic" err; FString "method" (Method r);
                                    FString "path" (Path r)] |}]
  end.
Proof.
  cbv beta iota zeta delta [Recovery bind].
  destruct (next w r s) as [[w1 [err|]] s1]; cbn [fst snd].
  - unfold Error, emit, ret. cbn [fst snd world trace].
    split; [reflexivity|]. split; [|split; [|split; reflexivity]].
    + unfold Health.http_Error, Health.Write, Health.WriteHeader, Health.Header_Set,
        Health.Header_Del. cbn. by destruct (Health.Sent w1).
    + unfold Health.status_of, Health.http_Error, Health.Write, Health.WriteHeader,
        Health.Header_Set, Health.Header_Del. cbn. by destruct (Health.Sent w1) as [[code h]|].
  - reflexivity.
Qed.

(** X21: wrapping a handler in [Recovery] twice is the same as wrapping it
    once. *)
Theorem Recovery_idempotent (next : Handler Env) (w : Health.ResponseWriter)
    (r : Request) (s : State Env) :
  Recovery (Recovery next) w r s = Recovery next w r s.
Proof.
  cbv beta iota zeta delta [Recovery bind].
  destruct (next w r s) as [[w1 [err|]] s1]; cbn [fst snd]; reflexivity.
Qed.
End MiddlewareProperties.

(** ** The built-in checkers and the sample inputs *)

Ltac run_variant :=
  unfold eval, bind, Now, Since, call, Error, emit, ret; simpl;
  repeat (match goal with
          | |- context [match ?x with _ => _ end] => destruct x; simpl
          | |- context [if ?x then _ else _] => destruct x; simpl
          end);
  repeat first [apply list_elem_of_here | apply list_elem_of_further].

Section BuiltinStatus.
Import Health.
Context {Env : Type} `{HTTPClient Env}.

(** X22: the four built-in checker variants report Healthy or Unhealthy
    and nothing else; the status Unknown does not come from them. *)
Theorem builtin_checkers_two_valued ctx (s : State Env) :
  (∀ c : DatabaseChecker Env,
     cr_Status (eval (Check c ctx) s) ∈ [StatusHealthy; StatusUnhealthy])
  ∧ (∀ c : RedisChecker Env,
     cr_Status (eval (Check c ctx) s) ∈ [StatusHealthy; StatusUnhealthy])
  ∧ (∀ c : MoshiChecker,
     cr_Status (eval (Check c ctx) s) ∈ [StatusHealthy; StatusUnhealthy])
  ∧ (∀ c : CustomChecker Env,
     cr_Status (eval (Check c ctx) s) ∈ [StatusHealthy; StatusUnhealthy]).
Proof.
  repeat split; intros c.
  - unfold Check, DatabaseChecker_Checker, DatabaseChecker_Check.
    run_variant.
  - unfold Check, RedisChecker_Checker, RedisChecker_Check.
    run_variant.
  - unfold Check, MoshiChecker_Checker, MoshiChecker_Check.
    run_variant.
  - unfold Check, CustomChecker_Checker, CustomChecker_Check.
    run_variant.
Qed.
End BuiltinStatus.

Section MoreExamples.
Import Health HealthSamples MoreSamples.

(** The database checker on the two sample handles. *)
Example database_checker_up_and_down :
  let up := eval (DatabaseChecker_Check (NewDatabaseChecker db_up) Background) hs0 in
  let down := eval (DatabaseChecker_Check (NewDatabaseChecker db_down) Background) hs0 in
  (cr_Status up = StatusHealthy ∧ cr_Duration up = 3
     ∧ cr_Metadata up !! "open_connections" = Some "4"
     ∧ cr_Metadata up !! "in_use" = Some "1" ∧ cr_Metadata up !! "idle" = Some "3")
  ∧ (cr_Status down = StatusUnhealthy ∧ cr_Duration down = 5
     ∧ cr_Message down = "Database ping failed: connection refused").
Proof. vm_compute. repeat split. Qed.

(** The three sample handlers under [Recovery]. *)
Example recovery_on_samples :
  let early := eval (Middleware.Recovery panics_early NewRecorder get_request) hs0 in
  let late := eval (Middleware.Recovery panics_late NewRecorder get_request) hs0 in
  status_of early.1 = Some 500
  ∧ status_of late.1 = Some 200
  ∧ Middleware.Recovery ok_handler NewRecorder get_request hs0
    = ok_handler NewRecorder get_request hs0.
Proof. vm_compute. repeat split. Qed.

(** A preflight request with the origin allowed by the wildcard. *)
Example cors_preflight_sample :
  let out := eval (Middleware.CORS ["*"] ["GET"; "POST"] ["Content-Type"; "X-Trace-ID"]
                     panics_early NewRecorder options_request) hs0 in
  out.2 = None
  ∧ (Sent out.1) = Some (200, {[ "Access-Control-Allow-Origin" := "https://app.example";
                                  "Access-Control-Allow-Methods" := "GET, POST";
                                  "Access-Control-Allow-Headers" := "Content-Type, X-Trace-ID";
                                  "Access-Control-Allow-Credentials" := "true" ]}).
Proof. vm_compute. repeat split. Qed.

Lemma AddChecker_last_registration_wins_witness :
  fair lifo
  ∧ let checks := hr_Checks (eval (CheckHealth lifo (AddChecker mMixed "db" custom_ok)
                                     Background) hs0) in
    (∃ r, r ∈ checks ∧ cr_Name r = "db")
    ∧ (∀ r, r ∈ checks → cr_Name r = "db" → produced_by Background r ("db", custom_ok))
    ∧ length checks = match checkers mMixed !! "db" with
                      | Some _ => size (checkers mMixed)
                      | None => S (size (checkers mMixed))
                      end
    ∧ ∀ c0, AddChecker (AddChecker mMixed "db" c0) "db" custom_ok
            = AddChecker mMixed "db" custom_ok.
Proof.
  split; [exact fair_lifo|].
  apply (AddChecker_last_registration_wins lifo mMixed Background hs0 "db" custom_ok).
  exact fair_lifo.
Defined.

Lemma RemoveChecker_drops_only_that_name_witness :
  fair lifo
  ∧ let checks := hr_Checks (eval (CheckHealth lifo (RemoveChecker mMixed "db")
                                     Background) hs0) in
    ("db" ∉ cr_Name <$> checks)
    ∧ ∀ n', n' ≠ "db" → (n' ∈ cr_Name <$> checks ↔ is_Some (checkers mMixed !! n')).
Proof.
  split; [exact fair_lifo|].
  apply (RemoveChecker_drops_only_that_name lifo mMixed Background hs0 "db").
  exact fair_lifo.
Defined.

Lemma RemoveChecker_absent_is_noop_witness :
  checkers mOk !! "db" = None
  ∧ RemoveChecker mOk "db" = mOk
  ∧ RemoveChecker (AddChecker mOk "db" custom_down) "db" = mOk.
Proof.
  split; [reflexivity|].
  apply (RemoveChecker_absent_is_noop mOk "db" custom_down). reflexivity.
Defined.

Lemma NewManager_is_empty_and_healthy_witness :
  fair lifo
  ∧ let m := eval (NewManager "phonic" "0.1.0") hs0 in
    let r := eval (CheckHealth lifo m Background) hs0 in
    exec (NewManager "phonic" "0.1.0") hs0 = hs0
    ∧ checkers m = ∅ ∧ startTime m = now (world hs0)
    ∧ hr_Checks r = [] ∧ hr_Status r = StatusHealthy
    ∧ hr_Service r = "phonic" ∧ hr_Version r = "0.1.0".
Proof.
  split; [exact fair_lifo|].
  apply (NewManager_is_empty_and_healthy lifo "phonic" "0.1.0" Background hs0 hs0).
  exact fair_lifo.
Defined.

Lemma overall_status_order_irrelevant_witness :
  let a := eval (CheckHealth fifo mMixed Background) hs0 in
  let b := eval (CheckHealth lifo mMixed Background) hs0 in
  hr_Checks a ≡ₚ hr_Checks b
  ∧ overall_loop StatusHealthy (hr_Checks a) = overall_loop StatusHealthy (hr_Checks b).
Proof.
  cbv zeta.
  assert (Hp : hr_Checks (eval (CheckHealth fifo mMixed Background) hs0)
               ≡ₚ hr_Checks (eval (CheckHealth lifo mMixed Background) hs0)).
  { vm_compute. apply perm_swap. }
  split; [exact Hp|].
  apply (overall_status_order_irrelevant _ _ Hp).
Defined.

Lemma validated_environment_modes_witness :
  Config.validateConfig staging = None
  ∧ (Config.IsDevelopment staging && Config.IsProduction staging = false)
  ∧ (Config.IsDevelopment staging = false ∧ Config.IsProduction staging = false
       ↔ Config.Environment (Config.App staging) = "staging").
Proof.
  split; [reflexivity|].
  apply (validated_environment_modes staging). reflexivity.
Defined.

Lemma getEnvironment_PHONIC_ENV_overrides_witness :
  "staging" ≠ ""
  ∧ Config.getEnvironment (<["PHONIC_ENV" := "staging"]> {[ "ENV" := "prod" ]}) = "staging".
Proof.
  split; [discriminate|].
  apply (getEnvironment_PHONIC_ENV_overrides {[ "ENV" := "prod" ]} "staging").
  discriminate.
Defined.
End MoreExamples.

(** ** Logging and recovery middleware *)

Section MoreMiddleware.
Import Middleware.
Context {Env : Type}.

(** The line that [HTTPLogging] writes before it runs the handler. *)
Lemma HTTPLogging_unfold (next : Handler Env) (w : Health.ResponseWriter)
    (r : Request) (s : State Env) :
  let started :=
    EvLog {| level := LInfo; msg := "HTTP request started";
             fields := WithContext (req_Values r)
                       ++ [FString "method" (Method r); FString "path" (Path r);
                           FString "query" (RawQuery r);
                           FString "user_agent" (Header_Get r "User-Agent");
                           FString "remote_addr" (RemoteAddr r);
                           FInt "content_length" (ContentLength r)] |} in
  let out := next w r {| world := world s; trace := trace s ++ [started] |} in
  HTTPLogging next w r s =
  match out.1.2 with
  | Some _ => out
  | None =>
      (out.1,
       {| world := world out.2;
          trace := trace out.2 ++
            [EvLog {| level := LInfo; msg := "HTTP request completed";
                      fields := WithContext (req_Values r)
                                ++ [FDuration "duration"
                                      (now (world out.2) - now (world s))] |}] |})
  end.
Proof.
  cbv beta iota zeta delta [HTTPLogging bind Now Since Info emit ret UserAgent].
  cbn [fst snd world trace].
  destruct (next w r _) as [[w1 [p|]] s1]; reflexivity.
Qed.

(** X24: [HTTPLogging] does not touch the response: the writer and the
    panic, if any, are those of the handler, run after the start line has
    been logged.  When the handler returns, the completion line is appended
    with the time from the arrival of the request to the return of the
    handler; when the handler panics, no completion line is written. *)
Theorem HTTPLogging_brackets_handler (next : Handler Env) (w : Health.ResponseWriter)
    (r : Request) (s : State Env) :
  ∃ started s1,
    s1 = {| world := world s; trace := trace s ++ [EvLog started] |}
    ∧ msg started = "HTTP request started"
    ∧ eval (HTTPLogging next w r) s = eval (next w r) s1
    ∧ world (exec (HTTPLogging next w r) s) = world (exec (next w r) s1)
    ∧ trace (exec (HTTPLogging next w r) s)
      = trace (exec (next w r) s1) ++
        match (eval (next w r) s1).2 with
        | Some _ => []
        | None =>
            [EvLog {| level := LInfo; msg := "HTTP request completed";
                      fields := WithContext (req_Values r)
                                ++ [FDuration "duration"
                                      (now (world (exec (next w r) s1))
                                       - now (world s))] |}]
        end.
Proof.
  exists {| level := LInfo; msg := "HTTP request started";
            fields := WithContext (req_Values r)
                      ++ [FString "method" (Method r); FString "path" (Path r);
                          FString "query" (RawQuery r);
                          FString "user_agent" (Header_Get r "User-Agent");
                          FString "remote_addr" (RemoteAddr r);
                          FInt "content_length" (ContentLength r)] |}.
  eexists. split; [reflexivity|]. split; [reflexivity|].
  unfold eval, exec. rewrite HTTPLogging_unfold. cbv zeta.
  destruct (next w r _) as [[w1 [p|]] s1]; cbn [fst snd world trace].
  - repeat split. by rewrite app_nil_r.
  - repeat split.
Qed.

(** X25: with [Recovery] inside [HTTPLogging] every request ends with the
    completion line, also when the handler panics, and the result carries
    no panic. *)
Theorem HTTPLogging_Recovery_always_completes (next : Handler Env)
    (w : Health.ResponseWriter) (r : Request) (s : State Env) :
  (eval (HTTPLogging (Recovery next) w r) s).2 = None
  ∧ ∃ e, last (trace (exec (HTTPLogging (Recovery next) w r) s)) = Some (EvLog e)
         ∧ msg e = "HTTP request completed".
Proof.
  unfold eval, exec. rewrite HTTPLogging_unfold. cbv zeta.
  cbv beta iota zeta delta [Recovery bind].
  destruct (next w r _) as [[w1 [p|]] s1]; cbn [fst snd];
    unfold Error, emit, ret; cbn [fst snd world trace];
    (split; [reflexivity|]); eexists; rewrite last_snoc; split; reflexivity.
Qed.

(** X26: [GRPCRecoveryInterceptor] returns what the handler returns, and
    leaves the state as the handler left it, when the handler does not
    panic; a panic is logged once and becomes the nil response with the
    status error Internal. *)
Theorem GRPCRecoveryInterceptor_outcomes {Req Resp : Type} (values : gmap string string)
    (req : Req) (FullMethod : string) (handler : UnaryHandler Env Req Resp)
    (s : State Env) :
  let out := handler values req s in
  let res := GRPCRecoveryInterceptor values req FullMethod handler s in
  match out.1 with
  | Returned resp err => res = out
  | Panicked v =>
      res.1 = Returned None (Some (StatusError "Internal" "Internal server error"))
      ∧ world res.2 = world out.2
      ∧ trace res.2 = trace out.2 ++
          [EvLog {| level := LError; msg := "gRPC handler panic";
                    fields := WithContext values
                              ++ [FString "panic" v; FString "method" FullMethod] |}]
  end.
Proof.
  cbv beta iota zeta delta [GRPCRecoveryInterceptor bind].
  destruct (handler values req s) as [[resp err|v] s1]; cbn [fst snd].
  - reflexivity.
  - unfold Error, emit, ret. cbn. repeat split.
Qed.
End MoreMiddleware.

(** ** The fork and join of a pass *)

Section ForkJoinProperties.
Import Health ForkJoin.
Context {Env : Type}.
Implicit Types (cfg : Config Env) (ws : list (Worker Env)) (L : list string).

Lemma workers_split ws (i : nat) (w : Worker Env) :
  ws !! i = Some w →
  ∃ l1 l2, ws = l1 ++ w :: l2 ∧ ∀ w', <[i := w']> ws = l1 ++ w' :: l2.
Proof.
  intros Hi. exists (take i ws), (drop (S i) ws). split.
  - symmetry. by apply take_drop_middle.
  - intros w'. apply insert_take_drop. by eapply lookup_lt_Some.
Qed.

Lemma enabled_can cfg (a : Action) : a ∈ enabled cfg → can cfg a = true.
Proof.
  unfold enabled. intros Ha. apply list_elem_of_In in Ha.
  by apply List.filter_In in Ha as [_ Ha].
Qed.

Lemma can_enabled cfg (a : Action) : can cfg a = true → a ∈ enabled cfg.
Proof.
  intros Hc. unfold enabled. apply list_elem_of_In, List.filter_In. split; [|exact Hc].
  destruct a as [|i|].
  - by left.
  - right. right. apply List.in_map, List.in_seq. split; [lia|]. simpl.
    unfold can in Hc. apply andb_true_iff in Hc as [_ Hc].
    destruct (workers cfg !! i) as [w|] eqn:Hw; [|discriminate].
    by eapply lookup_lt_Some.
  - right. by left.
Qed.

Lemma sum_with_snoc (f : Worker Env → nat) ws (w : Worker Env) :
  sum_list_with f (ws ++ [w]) = (sum_list_with f ws + f w)%nat.
Proof. rewrite sum_list_with_app. simpl. lia. Qed.

Lemma sum_with_middle (f : Worker Env → nat) (l1 l2 : list (Worker Env)) (w : Worker Env) :
  sum_list_with f (l1 ++ w :: l2)
  = (sum_list_with f l1 + f w + sum_list_with f l2)%nat.
Proof. rewrite sum_list_with_app. simpl. lia. Qed.

Lemma names_middle (l1 l2 : list (Worker Env)) (w : Worker Env) :
  concat (worker_names <$> (l1 ++ w :: l2))
  = concat (worker_names <$> l1) ++ worker_names w ++ concat (worker_names <$> l2).
Proof. by rewrite fmap_app, concat_app. Qed.

Ltac fields :=
  cbn [main workers closer wg resultCh capacity closed checks state fault
       set_main set_workers set_closer set_wg set_resultCh set_closed set_checks
       set_state set_fault main_rest main_cost closer_cost fst snd] in *.

Lemma step_main_Inv L cfg :
  Inv L cfg → can cfg AMain = true →
  Inv L (step_main cfg) ∧ S (remaining (step_main cfg)) = remaining cfg.
Proof.
  destruct cfg as [mn ws cl w q cap cd cks st ft].
  unfold Inv, can, step_main, remaining, all_names. fields.
  intros (Hf & Hn & Hwg & Hcap & Hc1 & Hc2 & Hc3 & Hr) Hcan. subst ft.
  cbn [negb andb] in Hcan.
  destruct mn as [[|[n c] rest]| |]; fields.
  - assert (cl = CNone) as -> by (apply Hc1; eauto).
    assert (cd = false) as ->.
    { destruct cd; [|done]. destruct Hc2 as [Hc2 _]. by specialize (Hc2 eq_refl). }
    split; [|cbn [closer_cost length]; lia].
    split; [done|]. split; [exact Hn|]. split; [done|]. split; [exact Hcap|].
    split; [split; [discriminate | intros [? ?]; discriminate]|].
    split; [split; discriminate|]. split; discriminate.
  - assert (cl = CNone) as -> by (apply Hc1; eauto).
    split; [|rewrite sum_with_snoc; cbn [worker_cost length]; lia].
    split; [done|]. split.
    { rewrite fmap_app, concat_app. cbn [fmap list_fmap concat worker_names].
      rewrite <- Hn. cbn [fmap list_fmap fst]. solve_Permutation. }
    split; [rewrite sum_with_snoc; cbn [live]; lia|].
    split; [rewrite sum_with_snoc; cbn [unsent length] in *; lia|].
    split; [split; eauto|]. split; [exact Hc2|]. split; [discriminate|discriminate].
  - destruct q as [|r q]; fields.
    + subst cd. cbn iota. fields. split; [|cbn [length]; lia].
      split; [done|]. split; [exact Hn|]. split; [done|]. split; [exact Hcap|].
      split.
      { split; [|intros [? ?]; discriminate].
        intros ->. destruct Hc1 as [Hc1 _]. destruct (Hc1 eq_refl) as [? ?]. discriminate. }
      split; [exact Hc2|]. split; [exact Hc3|]. done.
    + split; [|cbn [length]; lia].
      split; [done|]. split.
      { rewrite fmap_app. rewrite <- Hn. cbn [fmap list_fmap]. solve_Permutation. }
      split; [done|]. split; [cbn [length] in *; lia|].
      split; [exact Hc1|]. split; [exact Hc2|]. split; [exact Hc3|]. discriminate.
  - discriminate.
Qed.

Lemma step_closer_Inv L cfg :
  Inv L cfg → can cfg ACloser = true →
  Inv L (step_closer cfg) ∧ S (remaining (step_closer cfg)) = remaining cfg.
Proof.
  destruct cfg as [mn ws cl w q cap cd cks st ft].
  unfold Inv, can, step_closer, remaining, all_names. fields.
  intros (Hf & Hn & Hwg & Hcap & Hc1 & Hc2 & Hc3 & Hr) Hcan. subst ft.
  cbn [negb andb] in Hcan.
  destruct cl; try discriminate. rewrite Hcan. fields.
  apply Z.eqb_eq in Hcan. subst w.
  split; [|lia].
  split; [done|]. split; [exact Hn|]. split; [done|]. split; [exact Hcap|].
  split.
  { split; [discriminate|]. intros Hex. apply Hc1 in Hex. discriminate. }
  split; [done|]. split; [intros _; lia|].
  intros Hm. split; [done|]. by apply Hr.
Qed.

Lemma run_checker_name ctx (nc : string * AnyChecker Env) (s : State Env) :
  cr_Name (run_checker ctx nc s).1 = nc.1.
Proof. by rewrite run_checker_spec. Qed.

Lemma step_worker_Inv L ctx (i : nat) cfg :
  Inv L cfg → can cfg (AWorker i) = true →
  Inv L (step_worker ctx i cfg) ∧ S (remaining (step_worker ctx i cfg)) = remaining cfg.
Proof.
  destruct cfg as [mn ws cl w q cap cd cks st ft].
  unfold Inv, can, step_worker, remaining, all_names. fields.
  intros (Hf & Hn & Hwg & Hcap & Hc1 & Hc2 & Hc3 & Hr) Hcan. subst ft.
  cbn [negb andb] in Hcan.
  destruct (ws !! i) as [wk|] eqn:Hi; [|discriminate].
  destruct (workers_split ws i wk Hi) as (l1 & l2 & -> & Hins).
  rewrite sum_with_middle in Hwg, Hcap, Hc3. rewrite names_middle in Hn.
  assert (Hopen : live wk = 1%nat → cl ≠ CExit).
  { intros Hl Hcl. specialize (Hc3 Hcl). lia. }
  destruct wk as [n c|r| |]; [| | |discriminate].
  - pose proof (run_checker_name ctx (n, c) st) as Hname.
    destruct (run_checker ctx (n, c) st) as [result s']. fields.
    rewrite Hins, !sum_with_middle, names_middle.
    cbn [worker_cost live unsent worker_names] in *. simpl in Hname. subst n.
    split; [|lia].
    split; [done|]. split; [exact Hn|]. split; [exact Hwg|]. split; [exact Hcap|].
    split; [exact Hc1|]. split; [exact Hc2|]. split; [exact Hc3|]. exact Hr.
  - assert (Hcd : cd = false).
    { destruct cd; [|done]. exfalso. apply (Hopen eq_refl). by apply Hc2. }
    subst cd. cbn [unsent live worker_cost worker_names] in *.
    assert (Hlt : (length q <? cap)%nat = true) by (apply Nat.ltb_lt; lia).
    rewrite Hlt. fields.
    rewrite Hins, !sum_with_middle, names_middle, length_app.
    cbn [worker_cost live unsent worker_names length].
    split; [|lia].
    split; [done|]. split.
    { rewrite fmap_app. cbn [fmap list_fmap]. rewrite <- Hn. solve_Permutation. }
    split; [exact Hwg|]. split; [lia|].
    split; [exact Hc1|]. split; [exact Hc2|]. split; [exact Hc3|].
    intros Hm. destruct (Hr Hm) as [? _]. discriminate.
  - cbn [unsent live worker_cost worker_names] in *.
    assert (Hpos : (w <=? 0) = false) by (apply Z.leb_gt; lia).
    rewrite Hpos. fields.
    rewrite Hins, !sum_with_middle, names_middle.
    cbn [worker_cost live unsent worker_names].
    split; [|lia].
    split; [done|]. split; [exact Hn|]. split; [lia|]. split; [lia|].
    split; [exact Hc1|]. split; [exact Hc2|].
    split; [intros Hcl; exfalso; by apply (Hopen eq_refl)|]. exact Hr.
Qed.

Lemma step_Inv L ctx (a : Action) cfg :
  Inv L cfg → can cfg a = true →
  Inv L (step ctx a cfg) ∧ S (remaining (step ctx a cfg)) = remaining cfg.
Proof.
  destruct a as [|i|]; simpl.
  - apply step_main_Inv.
  - apply step_worker_Inv.
  - apply step_closer_Inv.
Qed.

Lemma exists_live ws :
  sum_list_with live ws ≠ 0%nat → ∃ i w, ws !! i = Some w ∧ live w = 1%nat.
Proof.
  induction ws as [|w ws IH]; simpl; [done|]. intros Hs.
  destruct (decide (live w = 0%nat)) as [Hw|Hw].
  - destruct IH as (i & w' & Hi & Hl); [lia|]. by exists (S i), w'.
  - exists 0%nat, w. split; [done|]. destruct w; simpl in *; done.
Qed.

Lemma no_live_no_cost ws :
  sum_list_with live ws = 0%nat →
  sum_list_with worker_cost ws = 0%nat ∧ concat (worker_names <$> ws) = [].
Proof.
  induction ws as [|w ws IH]; simpl; [done|]. intros Hs.
  destruct w; simpl in *; try lia. apply IH. lia.
Qed.

Lemma no_cost_no_names ws :
  sum_list_with worker_cost ws = 0%nat → concat (worker_names <$> ws) = [].
Proof.
  induction ws as [|w ws IH]; simpl; [done|]. intros Hs.
  destruct w; simpl in *; try lia. apply IH. lia.
Qed.

(** As long as steps are left, some goroutine can move: the pass cannot
    deadlock. *)
Lemma progress L cfg :
  Inv L cfg → (0 < remaining cfg)%nat → ∃ a, can cfg a = true.
Proof.
  destruct cfg as [mn ws cl w q cap cd cks st ft].
  unfold Inv, can, remaining, all_names. fields.
  intros (Hf & Hn & Hwg & Hcap & Hc1 & Hc2 & Hc3 & Hr) Hrem. subst ft.
  destruct mn as [rest| |]; fields.
  - by exists AMain.
  - destruct (decide (sum_list_with live ws = 0%nat)) as [Hz|Hnz].
    + destruct cl.
      * destruct Hc1 as [Hc1 _]. destruct (Hc1 eq_refl) as [? ?]. discriminate.
      * exists ACloser. cbn [negb andb]. apply Z.eqb_eq. lia.
      * exists AMain. cbn [negb andb]. destruct q; [|done]. by apply Hc2.
    + destruct (exists_live ws Hnz) as (i & wk & Hi & Hl).
      exists (AWorker i). cbn [negb andb]. fields. rewrite Hi.
      destruct (workers_split ws i wk Hi) as (l1 & l2 & -> & _).
      rewrite sum_with_middle in Hcap.
      destruct wk; simpl in *; try done.
      apply orb_true_iff. right. apply Nat.ltb_lt. lia.
  - exfalso. destruct (Hr eq_refl) as [-> ->].
    assert (Hcl : cl = CExit) by (by apply Hc2).
    destruct (no_live_no_cost ws (Hc3 Hcl)) as [Hcost _].
    subst cl. simpl in Hrem. lia.
Qed.

Lemma turn_Inv L ctx (choice : nat) cfg :
  Inv L cfg →
  Inv L (turn ctx choice cfg)
  ∧ remaining (turn ctx choice cfg) = pred (remaining cfg).
Proof.
  intros HI. unfold turn.
  destruct (enabled cfg) as [|a0 acts] eqn:He.
  - simpl. split; [done|].
    destruct (remaining cfg) as [|k] eqn:Hk; [done|]. exfalso.
    destruct (progress L cfg HI) as [a Ha]; [lia|].
    apply can_enabled in Ha. rewrite He in Ha. inversion Ha.
  - destruct ((a0 :: acts) !! (choice mod length (a0 :: acts))%nat) as [a|] eqn:Ha.
    + assert (Hin : a ∈ enabled cfg).
      { rewrite He. by eapply list_elem_of_lookup_2. }
      destruct (step_Inv L ctx a cfg HI (enabled_can cfg a Hin)) as [HI' Hrem].
      split; [done|]. lia.
    + exfalso. apply lookup_ge_None in Ha.
      pose proof (Nat.mod_upper_bound choice (length (a0 :: acts))) as Hb.
      simpl in *. lia.
Qed.

Lemma run_Inv L ctx (pick : nat → nat) (n k : nat) cfg :
  Inv L cfg → (remaining cfg ≤ n)%nat →
  Inv L (run ctx pick k n cfg) ∧ remaining (run ctx pick k n cfg) = 0%nat.
Proof.
  revert k cfg. induction n as [|n IH]; intros k cfg HI Hrem; simpl.
  - split; [done | lia].
  - destruct (turn_Inv L ctx (pick k) cfg HI) as [HI' Hr'].
    apply IH; [done | lia].
Qed.

Lemma init_Inv (snapshot : gmap string (AnyChecker Env)) (s : State Env) :
  Inv (map_to_list snapshot).*1 (init snapshot s)
  ∧ remaining (init snapshot s) = steps (size snapshot).
Proof.
  unfold Inv, remaining, all_names, init, steps. fields. simpl.
  rewrite length_map_to_list.
  split; [|lia].
  split; [done|]. split; [by rewrite !app_nil_r|]. split; [done|]. split; [lia|].
  split; [split; eauto|]. split; [split; discriminate|]. split; discriminate.
Qed.

Lemma finished L cfg :
  Inv L cfg → remaining cfg = 0%nat →
  main cfg = MReturn ∧ fault cfg = false ∧ cr_Name <$> checks cfg ≡ₚ L.
Proof.
  destruct cfg as [mn ws cl w q cap cd cks st ft].
  unfold Inv, remaining, all_names. fields.
  intros (Hf & Hn & _) Hrem.
  destruct mn as [rest| |]; fields; try lia.
  split; [done|]. split; [done|].
  assert (q = []) as -> by (destruct q; simpl in *; [done | lia]).
  rewrite no_cost_no_names in Hn by lia. exact Hn.
Qed.

(** C2: whatever the scheduler does, the pass ends after [steps] turns
    without a panic, and the report it returns for a registry of [N] names
    holds [N] results, each registered name borne by exactly one of them. *)
Theorem CheckHealth_fork_join_one_result_per_name (pick : nat → nat)
    (m : Manager Env) ctx (s : State Env) :
  ∃ r, eval (ForkJoin.CheckHealth pick m ctx) s = Some r
       ∧ length (hr_Checks r) = size (checkers m)
       ∧ NoDup (cr_Name <$> hr_Checks r)
       ∧ ∀ n, n ∈ cr_Name <$> hr_Checks r ↔ is_Some (checkers m !! n).
Proof.
  destruct (init_Inv (checkers m) s) as [HI0 Hrem0].
  destruct (run_Inv _ ctx pick (steps (size (checkers m))) 0 _ HI0) as [HI Hrem]; [lia|].
  destruct (finished _ _ HI Hrem) as (Hm & Hf & Hn).
  unfold eval, ForkJoin.CheckHealth. cbv zeta. rewrite Hm, Hf.
  unfold report, bind, Since, Info, emit, Now, ret. cbn [fst snd hr_Checks].
  eexists. split; [reflexivity|]. cbn [hr_Checks].
  split; [|split].
  - rewrite <- (length_fmap cr_Name), Hn, length_fmap. apply length_map_to_list.
  - rewrite Hn. apply NoDup_fst_map_to_list.
  - intros n. rewrite Hn. split.
    + intros Hin. apply list_elem_of_fmap in Hin as ([n' c] & -> & Hin).
      apply elem_of_map_to_list in Hin. by eexists.
    + intros [c Hc]. apply list_elem_of_fmap.
      exists (n, c). split; [done|]. by apply elem_of_map_to_list.
Qed.
End ForkJoinProperties.

(** Four schedulers over the sample registry: every one ends the pass, and
    the results arrive in either order. *)
Example fork_join_on_samples :
  let names pick :=
    (fun r => Health.cr_Name <$> Health.hr_Checks r)
      <$> eval (ForkJoin.CheckHealth pick HealthSamples.mMixed Background) HealthSamples.hs0 in
  names (fun _ => 0%nat) = Some ["api"; "db"]
  ∧ names (fun k => k) = Some ["api"; "db"]
  ∧ names (fun k => (k * k + 1)%nat) = Some ["db"; "api"]
  ∧ ForkJoin.main (ForkJoin.run Background (fun _ => 0%nat) 0 12
                     (ForkJoin.init (Health.checkers HealthSamples.mMixed) HealthSamples.hs0))
    = ForkJoin.MCollect.
Proof. vm_compute. repeat split. Qed.
